(** * The layered build-artifact cache of Universal Recycle

    A shallow embedding of [recycle/cache.py]: cache entries, the three
    storage backends (Redis, S3, local files), the [CacheManager] that
    fronts an ordered list of backends, and the cache key generators,
    followed by the properties of the cache contract.

    Conventions of the embedding.
    - A [datetime] is the number of microseconds since
      0001-01-01T00:00:00 (the resolution of Python's [datetime]); an
      ISO-8601 string produced by [isoformat] is represented by the
      instant it denotes, [fromisoformat] being its inverse.
    - [datetime.now()] reads a clock; every reading is one step of a
      clock value threaded through the code, so that two readings taken
      by one call may differ.
    - A payload is a [bytes] object.  The pickled form of an entry
      dictionary kept by a store is represented by the dictionary
      ([pickle.loads] inverts [pickle.dumps]); the pickled form of a
      payload, whose length the manager records, is spelled out.
    - Each backend value carries the store it fronts (the Redis key space,
      the S3 bucket, the cache directory) in its fault-free behaviour;
      the [except Exception] handlers are the [try_except] of the code. *)

From Stdlib Require Import ZArith Strings.Byte Ascii String.
From stdpp Require Import gmap strings list fin_maps.

Local Open Scope Z_scope.

(** ** Bytes *)

Abbreviation bytes := (list byte).

Definition byte_of_Z (z : Z) : byte :=
  match Byte.of_N (Z.to_N (z mod 256)) with
  | Some b => b
  | None => x00
  end.

Definition Z_of_byte (b : byte) : Z := Z.of_N (Byte.to_N b).

(** [n] little-endian bytes of [z]. *)
Fixpoint le_bytes (n : nat) (z : Z) : bytes :=
  match n with
  | O => []
  | S n' => byte_of_Z z :: le_bytes n' (Z.shiftr z 8)
  end.

Definition len {A} (l : list A) : Z := Z.of_nat (length l).

(** ** [hashlib.md5] (RFC 1321), as used by [LocalCacheBackend._get_cache_path] *)

Module md5.

Definition K : list Z :=
  [ 0xd76aa478; 0xe8c7b756; 0x242070db; 0xc1bdceee;
    0xf57c0faf; 0x4787c62a; 0xa8304613; 0xfd469501;
    0x698098d8; 0x8b44f7af; 0xffff5bb1; 0x895cd7be;
    0x6b901122; 0xfd987193; 0xa679438e; 0x49b40821;
    0xf61e2562; 0xc040b340; 0x265e5a51; 0xe9b6c7aa;
    0xd62f105d; 0x02441453; 0xd8a1e681; 0xe7d3fbc8;
    0x21e1cde6; 0xc33707d6; 0xf4d50d87; 0x455a14ed;
    0xa9e3e905; 0xfcefa3f8; 0x676f02d9; 0x8d2a4c8a;
    0xfffa3942; 0x8771f681; 0x6d9d6122; 0xfde5380c;
    0xa4beea44; 0x4bdecfa9; 0xf6bb4b60; 0xbebfbc70;
    0x289b7ec6; 0xeaa127fa; 0xd4ef3085; 0x04881d05;
    0xd9d4d039; 0xe6db99e5; 0x1fa27cf8; 0xc4ac5665;
    0xf4292244; 0x432aff97; 0xab9423a7; 0xfc93a039;
    0x655b59c3; 0x8f0ccc92; 0xffeff47d; 0x85845dd1;
    0x6fa87e4f; 0xfe2ce6e0; 0xa3014314; 0x4e0811a1;
    0xf7537e82; 0xbd3af235; 0x2ad7d2bb; 0xeb86d391 ].

Definition shifts : list Z :=
  [ 7; 12; 17; 22; 7; 12; 17; 22; 7; 12; 17; 22; 7; 12; 17; 22;
    5; 9; 14; 20; 5; 9; 14; 20; 5; 9; 14; 20; 5; 9; 14; 20;
    4; 11; 16; 23; 4; 11; 16; 23; 4; 11; 16; 23; 4; 11; 16; 23;
    6; 10; 15; 21; 6; 10; 15; 21; 6; 10; 15; 21; 6; 10; 15; 21 ].

Definition w32 (x : Z) : Z := Z.land x 0xffffffff.
Definition not32 (x : Z) : Z := Z.lxor x 0xffffffff.
Definition rotl32 (x c : Z) : Z :=
  w32 (Z.lor (Z.shiftl x c) (Z.shiftr x (32 - c))).

(** The message followed by 0x80, zeros up to 56 mod 64, and the bit
    length as 8 little-endian bytes. *)
Definition pad (msg : bytes) : bytes :=
  let n := len msg in
  let zeros := Z.to_nat ((55 - n) mod 64) in
  msg ++ x80 :: repeat x00 zeros ++ le_bytes 8 (8 * n).

Fixpoint le_word (bs : bytes) : Z :=
  match bs with
  | [] => 0
  | b :: rest => Z_of_byte b + 256 * le_word rest
  end.

Fixpoint words (n : nat) (bs : bytes) : list Z :=
  match n with
  | O => []
  | S n' => le_word (take 4 bs) :: words n' (drop 4 bs)
  end.

Definition state : Type := Z * Z * Z * Z.

Definition step (M : list Z) (s : state) (i : nat) : state :=
  let '(A, B, C, D) := s in
  let iz := Z.of_nat i in
  let '(F, g) :=
    if iz <? 16 then (Z.lor (Z.land B C) (Z.land (not32 B) D), iz)
    else if iz <? 32 then
      (Z.lor (Z.land D B) (Z.land (not32 D) C), (5 * iz + 1) mod 16)
    else if iz <? 48 then (Z.lxor B (Z.lxor C D), (3 * iz + 5) mod 16)
    else (Z.lxor C (Z.lor B (not32 D)), (7 * iz) mod 16) in
  let F' := w32 (F + A + nth i K 0 + nth (Z.to_nat g) M 0) in
  (D, w32 (B + rotl32 F' (nth i shifts 0)), B, C).

Definition block (s : state) (chunk : bytes) : state :=
  let '(a0, b0, c0, d0) := s in
  let '(A, B, C, D) := fold_left (step (words 16 chunk)) (seq 0 64) s in
  (w32 (a0 + A), w32 (b0 + B), w32 (c0 + C), w32 (d0 + D)).

Fixpoint blocks (n : nat) (s : state) (bs : bytes) : state :=
  match n with
  | O => s
  | S n' => blocks n' (block s (take 64 bs)) (drop 64 bs)
  end.

Definition digest (msg : bytes) : bytes :=
  let p := pad msg in
  let '(a, b, c, d) :=
    blocks (length p / 64)
      (0x67452301, 0xefcdab89, 0x98badcfe, 0x10325476) p in
  le_bytes 4 a ++ le_bytes 4 b ++ le_bytes 4 c ++ le_bytes 4 d.

Definition hex_digit (z : Z) : ascii :=
  match String.get (Z.to_nat z) "0123456789abcdef" with
  | Some c => c
  | None => "0"%char
  end.

Fixpoint hex (bs : bytes) : string :=
  match bs with
  | [] => EmptyString
  | b :: rest =>
      String (hex_digit (Z_of_byte b / 16))
        (String (hex_digit (Z_of_byte b mod 16)) (hex rest))
  end.

(** [hashlib.md5(key.encode()).hexdigest()]; a [str] is its encoding. *)
Definition hexdigest (key : string) : string :=
  hex (digest (list_byte_of_string key)).

End md5.

(** ** [pickle.dumps] of a [bytes] object (protocol 4, the default)

    PROTO 4, then the object ([SHORT_BINBYTES], [BINBYTES] or [BINBYTES8]
    with its length), MEMOIZE and STOP.  The opcodes after PROTO are
    wrapped in a FRAME, except that a payload of 64 KiB or more is written
    outside any frame and the two opcodes left are too few to be framed. *)

Definition pickle_dumps (data : bytes) : bytes :=
  let n := len data in
  let proto := [x80; x04] in
  let memoize_stop := [x94; x2e] in
  if n <? 256 then
    proto ++ x95 :: le_bytes 8 (n + 4)
          ++ x43 :: byte_of_Z n :: data ++ memoize_stop
  else if n <? 65536 then
    proto ++ x95 :: le_bytes 8 (n + 7)
          ++ x42 :: le_bytes 4 n ++ data ++ memoize_stop
  else if n <? 4294967296 then
    proto ++ x42 :: le_bytes 4 n ++ data ++ memoize_stop
  else
    proto ++ x8e :: le_bytes 8 n ++ data ++ memoize_stop.

(** ** Exceptions, the clock, and the monad of a method body *)

Inductive exn : Type :=
  | OverflowError        (* datetime arithmetic out of range *)
  | NotImplementedError  (* the methods of the base class *)
  | ResponseError        (* a command refused by the Redis server *)
  | ClientError          (* an S3 request answered with an error *)
  | NoSuchKey.           (* the S3 error for a missing object *)

Inductive outcome (A : Type) : Type :=
  | Ret (a : A)
  | Raise (e : exn).
Arguments Ret {A} a.
Arguments Raise {A} e.

(** The wall clock: [readings n] is the instant returned by the [n]-th
    reading, [pos] the number of readings taken so far. *)
Record Clock : Type := { readings : nat -> Z; pos : nat }.

Definition advance (c : Clock) : Clock :=
  {| readings := readings c; pos := S (pos c) |}.

Definition clock_now (c : Clock) : Z := readings c (pos c).

(** A computation over the object [S] it belongs to ([self]) and the
    clock; the state reached is kept when an exception is raised. *)
Definition M (S A : Type) : Type := S -> Clock -> outcome A * S * Clock.

Definition ret {S A} (a : A) : M S A := fun s c => (Ret a, s, c).

Definition raise {S A} (e : exn) : M S A := fun s c => (Raise e, s, c).

Definition bind {S A B} (m : M S A) (k : A -> M S B) : M S B :=
  fun s c =>
    match m s c with
    | (Ret a, s', c') => k a s' c'
    | (Raise e, s', c') => (Raise e, s', c')
    end.

Notation "'let*' x ':=' m 'in' k" := (bind m (fun x => k))
  (at level 10, x name, m at level 100, k at level 200, only parsing).

(** [try: body except Exception as e: handler]. *)
Definition try_except {S A} (body : M S A) (handler : exn -> M S A) : M S A :=
  fun s c =>
    match body s c with
    | (Ret a, s', c') => (Ret a, s', c')
    | (Raise e, s', c') => handler e s' c'
    end.

Definition self {S} : M S S := fun s c => (Ret s, s, c).

Definition modify {S} (f : S -> S) : M S unit := fun s c => (Ret tt, f s, c).

(** [datetime.now()]. *)
Definition now {S} : M S Z := fun s c => (Ret (clock_now c), s, advance c).

(** Run a computation of a component [T] of [S]. *)
Definition within {S T A} (proj : S -> T) (upd : S -> T -> S)
    (m : M T A) : M S A :=
  fun s c => let '(r, t', c') := m (proj s) c in (r, upd s t', c').

(** ** [datetime] arithmetic *)

(** [datetime.max] is 9999-12-31T23:59:59.999999, day 3652059. *)
Definition datetime_max : Z := 3652059 * 86400 * 1000000 - 1.

(** [t + timedelta(seconds=secs)]: [OverflowError] when the [timedelta]
    or the sum cannot be represented. *)
Definition datetime_add_seconds {S} (t secs : Z) : M S Z :=
  let r := t + secs * 1000000 in
  if (0 <=? r) && (r <=? datetime_max) then ret r else raise OverflowError.

(** ** [float]: the quotient of two integers

    [timedelta.total_seconds()] divides the microseconds of the duration
    by [10**6] with the true division of integers, which returns the
    binary64 number nearest to the quotient, ties going to the even
    mantissa.  The quotients of durations are far inside the normal range
    of binary64, so that neither overflow nor subnormal numbers occur. *)

Module float.

(** The finite number [mantissa * 2^exponent], [|mantissa| <= 2^53]. *)
Record t : Type := mk { mantissa : Z; exponent : Z }.

(** The fraction [n / (d * 2^e)] over integers. *)
Definition scaled (n d e : Z) : Z * Z :=
  if 0 <=? e then (n, d * 2 ^ e) else (n * 2 ^ (- e), d).

(** The integer nearest to [n / d], ties to even. *)
Definition round_half_even (n d : Z) : Z :=
  let q := n / d in
  let r := n mod d in
  if 2 * r <? d then q
  else if d <? 2 * r then q + 1
  else if Z.even q then q else q + 1.

(** The exponent [e] with [2^e <= n / d < 2^(e+1)], for positive [n], [d]. *)
Definition ilog2 (n d : Z) : Z :=
  let s := Z.log2 n - Z.log2 d in
  let '(N, D) := scaled n d s in
  if D <=? N then s else s - 1.

(** [n / d] for integers [n] and [d > 0]: a mantissa of 53 bits. *)
Definition true_divide (n d : Z) : t :=
  if n =? 0 then mk 0 0
  else
    let e := ilog2 (Z.abs n) d - 52 in
    let '(N, D) := scaled (Z.abs n) d e in
    mk (Z.sgn n * round_half_even N D) e.

(** [int(x)]: truncation towards zero. *)
Definition to_int (x : t) : Z :=
  if 0 <=? exponent x then mantissa x * 2 ^ exponent x
  else Z.quot (mantissa x) (2 ^ (- exponent x)).

End float.

(** [timedelta.total_seconds()] of a duration of [us] microseconds. *)
Definition total_seconds (us : Z) : float.t := float.true_divide us 1000000.

(** [int((a - b).total_seconds())]. *)
Definition whole_seconds_between (a b : Z) : Z :=
  float.to_int (total_seconds (a - b)).

(** ** CacheEntry *)

Module CacheEntry.

Record t : Type := mk {
  key : string;
  data : bytes;
  created_at : Z;
  expires_at : option Z;
  size_bytes : Z;
  metadata : gmap string string;
}.

(** The dictionary of [to_dict]; the two dates are ISO strings. *)
Record dict : Type := mk_dict {
  d_key : string;
  d_data : bytes;
  d_created_at : Z;
  d_expires_at : option Z;
  d_size_bytes : Z;
  d_metadata : gmap string string;
}.

Definition is_expired {S} (e : t) : M S bool :=
  match expires_at e with
  | None => ret false
  | Some at_ => let* t_now := now in ret (at_ <? t_now)
  end.

Definition to_dict (e : t) : dict :=
  {| d_key := key e;
     d_data := data e;
     d_created_at := created_at e;
     d_expires_at :=
       match expires_at e with Some at_ => Some at_ | None => None end;
     d_size_bytes := size_bytes e;
     d_metadata := metadata e |}.

Definition from_dict (d : dict) : t :=
  {| key := d_key d;
     data := d_data d;
     created_at := d_created_at d;
     expires_at :=
       match d_expires_at d with Some at_ => Some at_ | None => None end;
     size_bytes := d_size_bytes d;
     metadata := d_metadata d |}.

End CacheEntry.

(** ** The Redis client and the key space behind it

    A key holds a pickled entry dictionary and the instant after which the
    server no longer serves it.  The server reads the clock once per
    command. *)

Module redis.

Abbreviation keyspace := (gmap string (CacheEntry.dict * Z)).

Definition lookup_at (db : keyspace) (name : string) (t : Z)
    : option CacheEntry.dict :=
  match db !! name with
  | Some (value, deadline) => if t <=? deadline then Some value else None
  | None => None
  end.

Definition get (name : string) : M keyspace (option CacheEntry.dict) :=
  let* t := now in
  let* db := self in
  ret (lookup_at db name t).

(** SETEX refuses an expire time that is not positive. *)
Definition setex (name : string) (time : Z) (value : CacheEntry.dict)
    : M keyspace unit :=
  if time <=? 0 then raise ResponseError
  else
    let* t := now in
    modify (fun db : keyspace => <[name := (value, t + time * 1000000)]> db).

(** DEL answers with the number of keys it removed. *)
Definition delete (name : string) : M keyspace Z :=
  let* t := now in
  let* db := self in
  let* _ := modify (fun db : keyspace => base.delete name db) in
  ret (match lookup_at db name t with Some _ => 1 | None => 0 end).

Definition exists_ (name : string) : M keyspace Z :=
  let* t := now in
  let* db := self in
  ret (match lookup_at db name t with Some _ => 1 | None => 0 end).

(** The keys matching the pattern made of [prefix] and a star, all
    passed to one DEL; for a prefix free of glob metacharacters.  Keys
    past their deadline, which no command serves any more, go as well. *)
Definition delete_prefixed (prefix : string) : M keyspace unit :=
  modify (fun db : keyspace =>
            filter (fun kv => String.prefix prefix kv.1 = false) db).

End redis.

Module RedisCacheBackend.

Record t : Type := mk {
  prefix : string;
  default_ttl : Z;
  redis_client : redis.keyspace;
}.

Definition with_client (s : t) (db : redis.keyspace) : t :=
  {| prefix := prefix s; default_ttl := default_ttl s; redis_client := db |}.

Definition client {A} (m : M redis.keyspace A) : M t A :=
  within redis_client with_client m.

Definition _make_key (s : t) (key : string) : string := prefix s +:+ key.

Definition delete (key : string) : M t bool :=
  try_except
    (let* s := self in
     let redis_key := _make_key s key in
     let* result := client (redis.delete redis_key) in
     ret (0 <? result))
    (fun _ => ret false).

Definition get (key : string) : M t (option CacheEntry.t) :=
  try_except
    (let* s := self in
     let redis_key := _make_key s key in
     let* data := client (redis.get redis_key) in
     match data with
     | None => ret None
     | Some entry_dict =>
         let entry := CacheEntry.from_dict entry_dict in
         let* expired := CacheEntry.is_expired entry in
         if expired then
           let* _ := delete key in
           ret None
         else ret (Some entry)
     end)
    (fun _ => ret None).

Definition set (entry : CacheEntry.t) : M t bool :=
  try_except
    (let* s := self in
     let redis_key := _make_key s (CacheEntry.key entry) in
     let data := CacheEntry.to_dict entry in
     match CacheEntry.expires_at entry with
     | Some at_ =>
         let* t_now := now in
         let ttl := whole_seconds_between at_ t_now in
         if ttl <=? 0 then ret false
         else
           let* _ := client (redis.setex redis_key ttl data) in
           ret true
     | None =>
         let ttl := default_ttl s in
         let* _ := client (redis.setex redis_key ttl data) in
         ret true
     end)
    (fun _ => ret false).

Definition exists_ (key : string) : M t bool :=
  try_except
    (let* s := self in
     let redis_key := _make_key s key in
     let* n := client (redis.exists_ redis_key) in
     ret (0 <? n))
    (fun _ => ret false).

Definition clear : M t bool :=
  try_except
    (let* s := self in
     let* _ := client (redis.delete_prefixed (prefix s)) in
     ret true)
    (fun _ => ret false).

End RedisCacheBackend.

(** ** The S3 client and the bucket behind it *)

Module boto3.

(** The user metadata [S3CacheBackend.set] attaches to an object. *)
Record metadata : Type := mk_metadata {
  m_created_at : Z;
  m_size_bytes : Z;
  m_expires_at : option Z;
}.

Record object : Type := mk_object {
  body : CacheEntry.dict;
  user_metadata : metadata;
}.

Abbreviation bucket := (gmap string object).

(** A HEAD request for a missing key is answered 404, which the client
    raises as a plain [ClientError]. *)
Definition head_object (key : string) : M bucket metadata :=
  let* objects := self in
  match objects !! key with
  | Some o => ret (user_metadata o)
  | None => raise ClientError
  end.

Definition get_object (key : string) : M bucket CacheEntry.dict :=
  let* objects := self in
  match objects !! key with
  | Some o => ret (body o)
  | None => raise NoSuchKey
  end.

Definition put_object (key : string) (b : CacheEntry.dict) (m : metadata)
    : M bucket unit :=
  modify (fun objects : bucket =>
            <[key := {| body := b; user_metadata := m |}]> objects).

(** DELETE succeeds whether or not the key exists. *)
Definition delete_object (key : string) : M bucket unit :=
  modify (fun objects : bucket => base.delete key objects).

(** The listing under [prefix] handed to [delete_objects]. *)
Definition delete_prefixed (prefix : string) : M bucket unit :=
  modify (fun objects : bucket =>
            filter (fun kv => String.prefix prefix kv.1 = false) objects).

End boto3.

Module S3CacheBackend.

Record t : Type := mk {
  bucket_name : string;
  prefix : string;
  default_ttl : Z;
  s3_client : boto3.bucket;
}.

Definition with_client (s : t) (objects : boto3.bucket) : t :=
  {| bucket_name := bucket_name s; prefix := prefix s;
     default_ttl := default_ttl s; s3_client := objects |}.

Definition client {A} (m : M boto3.bucket A) : M t A :=
  within s3_client with_client m.

Definition _make_key (s : t) (key : string) : string := prefix s +:+ key.

Definition delete (key : string) : M t bool :=
  try_except
    (let* s := self in
     let s3_key := _make_key s key in
     let* _ := client (boto3.delete_object s3_key) in
     ret true)
    (fun _ => ret false).

(** The inner [try] either returns from [get] ([Some r]) or falls
    through to the download ([None]). *)
Definition get (key : string) : M t (option CacheEntry.t) :=
  try_except
    (let* s := self in
     let s3_key := _make_key s key in
     let* returned :=
       try_except
         (let* response := client (boto3.head_object s3_key) in
          match boto3.m_expires_at response with
          | Some expires_dt =>
              let* t_now := now in
              if expires_dt <? t_now then
                let* _ := delete key in
                ret (Some None)
              else ret None
          | None => ret None
          end)
         (fun e =>
            match e with
            | NoSuchKey => ret (Some None)
            | _ => raise e
            end) in
     match returned with
     | Some r => ret r
     | None =>
         let* entry_dict := client (boto3.get_object s3_key) in
         ret (Some (CacheEntry.from_dict entry_dict))
     end)
    (fun _ => ret None).

Definition set (entry : CacheEntry.t) : M t bool :=
  try_except
    (let* s := self in
     let s3_key := _make_key s (CacheEntry.key entry) in
     let data := CacheEntry.to_dict entry in
     let metadata :=
       {| boto3.m_created_at := CacheEntry.created_at entry;
          boto3.m_size_bytes := CacheEntry.size_bytes entry;
          boto3.m_expires_at :=
            match CacheEntry.expires_at entry with
            | Some at_ => Some at_
            | None => None
            end |} in
     let* _ := client (boto3.put_object s3_key data metadata) in
     ret true)
    (fun _ => ret false).

Definition exists_ (key : string) : M t bool :=
  try_except
    (let* s := self in
     let s3_key := _make_key s key in
     let* _ := client (boto3.head_object s3_key) in
     ret true)
    (fun _ => ret false).

Definition clear : M t bool :=
  try_except
    (let* s := self in
     let* _ := client (boto3.delete_prefixed (prefix s)) in
     ret true)
    (fun _ => ret false).

End S3CacheBackend.

(** ** The local backend and its cache directory

    [files] maps the name of a file of [cache_dir] to the entry dictionary
    pickled in it. *)

Module LocalCacheBackend.

Record t : Type := mk {
  cache_dir : string;
  default_ttl : Z;
  files : gmap string CacheEntry.dict;
}.

Definition with_files (s : t) (fs : gmap string CacheEntry.dict) : t :=
  {| cache_dir := cache_dir s; default_ttl := default_ttl s; files := fs |}.

(** The file name under [cache_dir]. *)
Definition _get_cache_path (key : string) : string :=
  let key_hash := md5.hexdigest key in
  key_hash +:+ ".cache".

Definition ends_with (suffix name : string) : bool :=
  let n := String.length name in
  let m := String.length suffix in
  (m <=? n)%nat && String.eqb (String.substring (n - m) m name) suffix.

Definition delete (key : string) : M t bool :=
  try_except
    (let* s := self in
     let cache_path := _get_cache_path key in
     match files s !! cache_path with
     | Some _ =>
         let* _ := modify (fun s => with_files s (base.delete cache_path (files s))) in
         ret true
     | None => ret false
     end)
    (fun _ => ret false).

Definition get (key : string) : M t (option CacheEntry.t) :=
  try_except
    (let* s := self in
     let cache_path := _get_cache_path key in
     match files s !! cache_path with
     | None => ret None
     | Some entry_dict =>
         let entry := CacheEntry.from_dict entry_dict in
         let* expired := CacheEntry.is_expired entry in
         if expired then
           let* _ := delete key in
           ret None
         else ret (Some entry)
     end)
    (fun _ => ret None).

Definition set (entry : CacheEntry.t) : M t bool :=
  try_except
    (let cache_path := _get_cache_path (CacheEntry.key entry) in
     let* _ :=
       modify (fun s =>
                 with_files s
                   (<[cache_path := CacheEntry.to_dict entry]> (files s))) in
     ret true)
    (fun _ => ret false).

Definition exists_ (key : string) : M t bool :=
  try_except
    (let* s := self in
     let cache_path := _get_cache_path key in
     ret (bool_decide (is_Some (files s !! cache_path))))
    (fun _ => ret false).

(** [glob("*.cache")] and [unlink] of every match. *)
Definition clear : M t bool :=
  try_except
    (let* _ :=
       modify (fun s =>
                 with_files s
                   (filter (fun kv => ends_with ".cache" kv.1 = false)
                           (files s))) in
     ret true)
    (fun _ => ret false).

End LocalCacheBackend.

(** ** The backend interface

    The methods of class [CacheBackend] that the manager calls. *)

Module CacheBackend.

Class t (B : Type) : Type := {
  get : string -> M B (option CacheEntry.t);
  set : CacheEntry.t -> M B bool;
  delete : string -> M B bool;
  exists_ : string -> M B bool;
  clear : M B bool;
}.

(** The base class itself: every method raises. *)
Inductive base : Type := Base.

End CacheBackend.

#[export] Instance base_backend : CacheBackend.t CacheBackend.base :=
  {| CacheBackend.get := fun _ => raise NotImplementedError;
     CacheBackend.set := fun _ => raise NotImplementedError;
     CacheBackend.delete := fun _ => raise NotImplementedError;
     CacheBackend.exists_ := fun _ => raise NotImplementedError;
     CacheBackend.clear := raise NotImplementedError |}.

#[export] Instance redis_backend : CacheBackend.t RedisCacheBackend.t :=
  {| CacheBackend.get := RedisCacheBackend.get;
     CacheBackend.set := RedisCacheBackend.set;
     CacheBackend.delete := RedisCacheBackend.delete;
     CacheBackend.exists_ := RedisCacheBackend.exists_;
     CacheBackend.clear := RedisCacheBackend.clear |}.

#[export] Instance s3_backend : CacheBackend.t S3CacheBackend.t :=
  {| CacheBackend.get := S3CacheBackend.get;
     CacheBackend.set := S3CacheBackend.set;
     CacheBackend.delete := S3CacheBackend.delete;
     CacheBackend.exists_ := S3CacheBackend.exists_;
     CacheBackend.clear := S3CacheBackend.clear |}.

#[export] Instance local_backend : CacheBackend.t LocalCacheBackend.t :=
  {| CacheBackend.get := LocalCacheBackend.get;
     CacheBackend.set := LocalCacheBackend.set;
     CacheBackend.delete := LocalCacheBackend.delete;
     CacheBackend.exists_ := LocalCacheBackend.exists_;
     CacheBackend.clear := LocalCacheBackend.clear |}.

(** The backends [CacheManager._setup_backends] can build. *)
Inductive Backend : Type :=
  | Redis (r : RedisCacheBackend.t)
  | S3 (s : S3CacheBackend.t)
  | Local (l : LocalCacheBackend.t).

(** Method dispatch on the class of the object. *)
Definition dispatch {A}
    (on_redis : M RedisCacheBackend.t A)
    (on_s3 : M S3CacheBackend.t A)
    (on_local : M LocalCacheBackend.t A) : M Backend A :=
  fun b c =>
    match b with
    | Redis r => let '(o, r', c') := on_redis r c in (o, Redis r', c')
    | S3 s => let '(o, s', c') := on_s3 s c in (o, S3 s', c')
    | Local l => let '(o, l', c') := on_local l c in (o, Local l', c')
    end.

#[export] Instance any_backend : CacheBackend.t Backend :=
  {| CacheBackend.get := fun key =>
       dispatch (RedisCacheBackend.get key) (S3CacheBackend.get key)
                (LocalCacheBackend.get key);
     CacheBackend.set := fun entry =>
       dispatch (RedisCacheBackend.set entry) (S3CacheBackend.set entry)
                (LocalCacheBackend.set entry);
     CacheBackend.delete := fun key =>
       dispatch (RedisCacheBackend.delete key) (S3CacheBackend.delete key)
                (LocalCacheBackend.delete key);
     CacheBackend.exists_ := fun key =>
       dispatch (RedisCacheBackend.exists_ key) (S3CacheBackend.exists_ key)
                (LocalCacheBackend.exists_ key);
     CacheBackend.clear :=
       dispatch RedisCacheBackend.clear S3CacheBackend.clear
                LocalCacheBackend.clear |}.

(** ** CacheManager

    The manager is its list [self.backends]; each loop runs the method of
    every backend inside [try ... except Exception], which logs and goes
    on to the next backend. *)

Module CacheManager.

Section manager.

Context {B : Type} `{CacheBackend.t B}.

Fixpoint get (key : string) (backends : list B) (c : Clock)
    : outcome (option CacheEntry.t) * list B * Clock :=
  match backends with
  | [] => (Ret None, [], c)
  | backend :: rest =>
      match CacheBackend.get key backend c with
      | (Ret (Some entry), backend', c') =>
          (Ret (Some entry), backend' :: rest, c')
      | (Ret None, backend', c') | (Raise _, backend', c') =>
          let '(r, rest', c'') := get key rest c' in
          (r, backend' :: rest', c'')
      end
  end.

(** The entry [set] constructs; [if ttl:] is false for [None] and 0. *)
Definition make_entry (key : string) (data : bytes) (ttl : option Z)
    (metadata : option (gmap string string)) : M (list B) CacheEntry.t :=
  let metadata := match metadata with Some m => m | None => ∅ end in
  let* expires_at :=
    match ttl with
    | Some secs =>
        if secs =? 0 then ret None
        else
          let* t_now := now in
          let* at_ := datetime_add_seconds t_now secs in
          ret (Some at_)
    | None => ret None
    end in
  let* created := now in
  ret {| CacheEntry.key := key;
         CacheEntry.data := data;
         CacheEntry.created_at := created;
         CacheEntry.expires_at := expires_at;
         CacheEntry.size_bytes := len (pickle_dumps data);
         CacheEntry.metadata := metadata |}.

Fixpoint set_all (entry : CacheEntry.t) (success : bool)
    (backends : list B) (c : Clock) : outcome bool * list B * Clock :=
  match backends with
  | [] => (Ret success, [], c)
  | backend :: rest =>
      let '(o, backend', c') := CacheBackend.set entry backend c in
      let success' :=
        match o with Ret true => true | _ => success end in
      let '(r, rest', c'') := set_all entry success' rest c' in
      (r, backend' :: rest', c'')
  end.

Definition set (key : string) (data : bytes) (ttl : option Z)
    (metadata : option (gmap string string)) : M (list B) bool :=
  let* entry := make_entry key data ttl metadata in
  set_all entry false.

Fixpoint delete_all (key : string) (success : bool)
    (backends : list B) (c : Clock) : outcome bool * list B * Clock :=
  match backends with
  | [] => (Ret success, [], c)
  | backend :: rest =>
      let '(o, backend', c') := CacheBackend.delete key backend c in
      let success' :=
        match o with Ret true => true | _ => success end in
      let '(r, rest', c'') := delete_all key success' rest c' in
      (r, backend' :: rest', c'')
  end.

Definition delete (key : string) : M (list B) bool :=
  delete_all key false.

Fixpoint exists_ (key : string) (backends : list B) (c : Clock)
    : outcome bool * list B * Clock :=
  match backends with
  | [] => (Ret false, [], c)
  | backend :: rest =>
      match CacheBackend.exists_ key backend c with
      | (Ret true, backend', c') => (Ret true, backend' :: rest, c')
      | (Ret false, backend', c') | (Raise _, backend', c') =>
          let '(r, rest', c'') := exists_ key rest c' in
          (r, backend' :: rest', c'')
      end
  end.

Fixpoint clear_all (success : bool) (backends : list B) (c : Clock)
    : outcome bool * list B * Clock :=
  match backends with
  | [] => (Ret success, [], c)
  | backend :: rest =>
      let '(o, backend', c') := CacheBackend.clear backend c in
      let success' :=
        match o with Ret true => success | _ => false end in
      let '(r, rest', c'') := clear_all success' rest c' in
      (r, backend' :: rest', c'')
  end.

Definition clear : M (list B) bool := clear_all true.

End manager.

End CacheManager.

(** ** Cache key generators *)

Definition generate_build_cache_key (repo_name commit_hash build_type : string)
    : string :=
  "build:" +:+ repo_name +:+ ":" +:+ commit_hash +:+ ":" +:+ build_type.

Definition generate_binding_cache_key (repo_name generator commit_hash : string)
    : string :=
  "binding:" +:+ repo_name +:+ ":" +:+ generator +:+ ":" +:+ commit_hash.

Definition generate_dependency_cache_key (dependency_name version : string)
    : string :=
  "dep:" +:+ dependency_name +:+ ":" +:+ version.

Definition generate_file_hash_cache_key (file_path : string) : string :=
  "hash:" +:+ file_path.

(** The semantic tuples behind the three generators, and the key each
    one is given. *)
Inductive cache_tuple : Type :=
  | BuildTuple (repo_name commit_hash build_type : string)
  | BindingTuple (repo_name generator commit_hash : string)
  | DependencyTuple (dependency_name version : string).

Definition derive_key (x : cache_tuple) : string :=
  match x with
  | BuildTuple r c t => generate_build_cache_key r c t
  | BindingTuple r g c => generate_binding_cache_key r g c
  | DependencyTuple n v => generate_dependency_cache_key n v
  end.

Fixpoint colon_free (s : string) : bool :=
  match s with
  | EmptyString => true
  | String a rest => negb (Ascii.eqb a ":") && colon_free rest
  end.

(** Every component but the last is free of the separator. *)
Definition separable (x : cache_tuple) : bool :=
  match x with
  | BuildTuple r c _ => colon_free r && colon_free c
  | BindingTuple r g _ => colon_free r && colon_free g
  | DependencyTuple n _ => colon_free n
  end.

(** ** Auxiliary notions of the statements *)

(** The bytes [pickle.dumps] adds around a payload. *)
Definition pickle_overhead (n : Z) : Z :=
  if n <? 256 then 15
  else if n <? 65536 then 18
  else if n <? 4294967296 then 9
  else 13.

(** The instant [now + timedelta(seconds=secs)] is a [datetime]. *)
Definition representable (t secs : Z) : bool :=
  (0 <=? t + secs * 1000000) && (t + secs * 1000000 <=? datetime_max).

(** [CacheManager.set] cannot compute the expiry date of its entry. *)
Definition expiry_overflows (ttl : option Z) (c : Clock) : bool :=
  match ttl with
  | Some secs => negb (secs =? 0) && negb (representable (clock_now c) secs)
  | None => false
  end.

(** The entry [make_entry] returns, given its two clock readings. *)
Definition entry_of (key : string) (data : bytes) (created : Z)
    (expires : option Z) (metadata : option (gmap string string))
    : CacheEntry.t :=
  {| CacheEntry.key := key;
     CacheEntry.data := data;
     CacheEntry.created_at := created;
     CacheEntry.expires_at := expires;
     CacheEntry.size_bytes := len (pickle_dumps data);
     CacheEntry.metadata := match metadata with Some m => m | None => ∅ end |}.

(** What backend [b] holds under [key], served or not. *)
Definition held (b : Backend) (key : string) : option CacheEntry.dict :=
  match b with
  | Redis r =>
      fst <$> RedisCacheBackend.redis_client r
                !! RedisCacheBackend._make_key r key
  | S3 s =>
      boto3.body <$> S3CacheBackend.s3_client s
                       !! S3CacheBackend._make_key s key
  | Local l =>
      LocalCacheBackend.files l !! LocalCacheBackend._get_cache_path key
  end.

(** What [b] serves under [key] at instant [t]: Redis has dropped a key
    whose deadline is past. *)
Definition served_at (b : Backend) (key : string) (t : Z)
    : option CacheEntry.dict :=
  match b with
  | Redis r =>
      redis.lookup_at (RedisCacheBackend.redis_client r)
        (RedisCacheBackend._make_key r key) t
  | _ => held b key
  end.

(** The expiry instant a read of [key] compares with the clock: the
    [expires_at] of the stored entry, which S3 keeps in the metadata of
    the object. *)
Definition held_expiry (b : Backend) (key : string) : option Z :=
  match b with
  | Redis r =>
      match RedisCacheBackend.redis_client r
              !! RedisCacheBackend._make_key r key with
      | Some (d, _) => CacheEntry.d_expires_at d
      | None => None
      end
  | S3 s =>
      match S3CacheBackend.s3_client s !! S3CacheBackend._make_key s key with
      | Some o => boto3.m_expires_at (boto3.user_metadata o)
      | None => None
      end
  | Local l =>
      match LocalCacheBackend.files l
              !! LocalCacheBackend._get_cache_path key with
      | Some d => CacheEntry.d_expires_at d
      | None => None
      end
  end.

(** [b] once its slot for [key] is deleted. *)
Definition evicted (b : Backend) (key : string) : Backend :=
  match b with
  | Redis r =>
      Redis (RedisCacheBackend.with_client r
               (delete (RedisCacheBackend._make_key r key)
                       (RedisCacheBackend.redis_client r)))
  | S3 s =>
      S3 (S3CacheBackend.with_client s
            (delete (S3CacheBackend._make_key s key)
                    (S3CacheBackend.s3_client s)))
  | Local l =>
      Local (LocalCacheBackend.with_files l
               (delete (LocalCacheBackend._get_cache_path key)
                       (LocalCacheBackend.files l)))
  end.

(** The clock after the reading a Redis command costs. *)
Definition server_tick (b : Backend) (c : Clock) : Clock :=
  match b with
  | Redis _ => advance c
  | _ => c
  end.

(** At instant [t], what [b] holds under [key] is neither dropped by the
    server nor expired. *)
Definition fresh_at (b : Backend) (key : string) (t : Z) : bool :=
  match held_expiry b key with
  | Some at_ => t <=? at_
  | None => true
  end
  && match b with
     | Redis r =>
         match RedisCacheBackend.redis_client r
                 !! RedisCacheBackend._make_key r key with
         | Some (_, deadline) => t <=? deadline
         | None => true
         end
     | _ => true
     end.

(** The objects of an S3 backend carry in their metadata the
    [expires_at] of the entry in their body, as [set] writes them. *)
Definition well_formed (b : Backend) : Prop :=
  match b with
  | S3 s =>
      forall k o, S3CacheBackend.s3_client s !! k = Some o ->
        boto3.m_expires_at (boto3.user_metadata o)
        = CacheEntry.d_expires_at (boto3.body o)
  | _ => True
  end.

Definition monotone (c : Clock) : Prop :=
  forall n m : nat, (n <= m)%nat -> readings c n <= readings c m.




(** A read of [key] left [b] alone, or evicted the entry of [key] that
    had expired by some reading of clock [c]. *)
Definition untouched_or_evicted (key : string) (c : Clock) (b b' : Backend)
    : Prop :=
  b' = b
  \/ (b' = evicted b key
      /\ exists at_ n, held_expiry b key = Some at_ /\ at_ < readings c n).

(** ** Fixtures for the worked examples *)

(** A clock started at [start] that moves by [step] microseconds from one
    reading to the next. *)
Definition ticking (start step : Z) : Clock :=
  {| readings := fun n => start + step * Z.of_nat n; pos := 0 |}.

(** 2024-01-01T00:00:00. *)
Definition t0 : Z := 738885 * 86400 * 1000000.

Definition hello : bytes := list_byte_of_string "hello".

(** Backends as the configuration wizard sets them up, over given stores. *)
Definition local_dir (default_ttl : Z) (files : gmap string CacheEntry.dict)
    : Backend :=
  Local {| LocalCacheBackend.cache_dir := ".cache/universal_recycle";
           LocalCacheBackend.default_ttl := default_ttl;
           LocalCacheBackend.files := files |}.

Definition s3_bucket (objects : boto3.bucket) : Backend :=
  S3 {| S3CacheBackend.bucket_name := "build-cache";
        S3CacheBackend.prefix := "universal_recycle/";
        S3CacheBackend.default_ttl := 3600;
        S3CacheBackend.s3_client := objects |}.

Definition redis_db (db : redis.keyspace) : Backend :=
  Redis {| RedisCacheBackend.prefix := "universal_recycle:";
           RedisCacheBackend.default_ttl := 3600;
           RedisCacheBackend.redis_client := db |}.

(** The dictionary of an entry for [key] created at [created]. *)
Definition dict_of (key : string) (data : bytes) (created : Z)
    (expires : option Z) : CacheEntry.dict :=
  CacheEntry.to_dict (entry_of key data created expires None).

(** An S3 object as [S3CacheBackend.set] writes it. *)
Definition object_of (d : CacheEntry.dict) : boto3.object :=
  {| boto3.body := d;
     boto3.user_metadata :=
       {| boto3.m_created_at := CacheEntry.d_created_at d;
          boto3.m_size_bytes := CacheEntry.d_size_bytes d;
          boto3.m_expires_at := CacheEntry.d_expires_at d |} |}.

(** The result of a call. *)
Definition result {S A} (x : outcome A * S * Clock) : outcome A := x.1.1.


(** ** Further notions: slots and file names *)

(** The address under which backend [b] keeps [key]: the prefixed key of
    Redis and S3, the file name of the local backend. *)
Definition slot (b : Backend) (key : string) : string :=
  match b with
  | Redis r => RedisCacheBackend._make_key r key
  | S3 s => S3CacheBackend._make_key s key
  | Local _ => LocalCacheBackend._get_cache_path key
  end.

(** Keys that [b] keeps under different addresses: different keys, and
    for the local backend keys with different digests. *)
Definition kept_apart (b : Backend) (k k' : string) : Prop :=
  match b with
  | Local _ => md5.hexdigest k <> md5.hexdigest k'
  | _ => k <> k'
  end.

Fixpoint all_chars (P : ascii -> bool) (s : string) : bool :=
  match s with
  | EmptyString => true
  | String a rest => P a && all_chars P rest
  end.

(** One of [0-9a-f]. *)
Definition hex_char (a : ascii) : bool :=
  let n := nat_of_ascii a in
  ((48 <=? n) && (n <=? 57) || (97 <=? n) && (n <=? 102))%nat.

(** A character with a meaning in a Redis glob pattern. *)
Definition glob_char (a : ascii) : bool :=
  Ascii.eqb a "*" || Ascii.eqb a "?" || Ascii.eqb a "["
  || Ascii.eqb a "]" || Ascii.eqb a "\".

Definition glob_free (s : string) : bool := all_chars (fun a => negb (glob_char a)) s.

Definition is_local (b : Backend) : bool :=
  match b with Local _ => true | _ => false end.

Definition is_redis (b : Backend) : bool :=
  match b with Redis _ => true | _ => false end.

(** The objects under the prefix of an S3 backend fit the one
    [delete_objects] request of [clear], which takes up to 1000 keys. *)
Definition within_one_request (s : S3CacheBackend.t) : bool :=
  (size (filter (fun kv => String.prefix (S3CacheBackend.prefix s) kv.1 = true)
                (S3CacheBackend.s3_client s)) <=? 1000)%nat.

(** [clear] meets no limit of the store: the prefix of a Redis backend is
    matched literally by the pattern built from it, and the objects of an
    S3 backend fit one request. *)
Definition clearable (b : Backend) : bool :=
  match b with
  | Redis r => glob_free (RedisCacheBackend.prefix r)
  | S3 s => within_one_request s
  | Local _ => true
  end.

(** The address of [key] is one the store accepts: an S3 object key has
    at most 1024 bytes. *)
Definition addressable (b : Backend) (key : string) : bool :=
  match b with
  | S3 s => (String.length (S3CacheBackend._make_key s key) <=? 1024)%nat
  | _ => true
  end.

(** ** Configuration and the construction of the manager

    A backend configuration is a dictionary; each key is absent or bound
    to a value of its type.  The environment supplies what a constructor
    finds: whether the client libraries could be imported, and the store
    behind a Redis address, a bucket name and a directory. *)

Module config.

Record t : Type := mk {
  type_ : option string;
  host : option string;
  port : option Z;
  db : option Z;
  prefix : option string;
  default_ttl : option Z;
  bucket_name : option string;
  cache_dir : option string;
}.

(** [config.get(key, default)]. *)
Definition get {A} (value : option A) (default : A) : A :=
  match value with
  | Some v => v
  | None => default
  end.

End config.

Inductive init_error : Type :=
  | ImportError   (* the client library is not installed *)
  | KeyError.     (* a required key is missing *)

Record environment : Type := {
  REDIS_AVAILABLE : bool;
  BOTO3_AVAILABLE : bool;
  redis_server : string -> Z -> Z -> redis.keyspace;
  s3_service : string -> boto3.bucket;
  file_system : string -> gmap string CacheEntry.dict;
}.

(** [RedisCacheBackend.__init__]. *)
Definition RedisCacheBackend_init (env : environment) (cfg : config.t)
    : init_error + RedisCacheBackend.t :=
  if negb (REDIS_AVAILABLE env) then inl ImportError
  else
    inr {| RedisCacheBackend.redis_client :=
             redis_server env (config.get (config.host cfg) "localhost")
               (config.get (config.port cfg) 6379)
               (config.get (config.db cfg) 0);
           RedisCacheBackend.prefix :=
             config.get (config.prefix cfg) "universal_recycle:";
           RedisCacheBackend.default_ttl :=
             config.get (config.default_ttl cfg) 3600 |}.

(** [S3CacheBackend.__init__]. *)
Definition S3CacheBackend_init (env : environment) (cfg : config.t)
    : init_error + S3CacheBackend.t :=
  if negb (BOTO3_AVAILABLE env) then inl ImportError
  else
    match config.bucket_name cfg with
    | None => inl KeyError
    | Some name =>
        inr {| S3CacheBackend.bucket_name := name;
               S3CacheBackend.prefix :=
                 config.get (config.prefix cfg) "universal_recycle/";
               S3CacheBackend.default_ttl :=
                 config.get (config.default_ttl cfg) 3600;
               S3CacheBackend.s3_client := s3_service env name |}
    end.

(** [LocalCacheBackend.__init__]. *)
Definition LocalCacheBackend_init (env : environment) (cfg : config.t)
    : init_error + LocalCacheBackend.t :=
  let dir := config.get (config.cache_dir cfg) ".cache/universal_recycle" in
  inr {| LocalCacheBackend.cache_dir := dir;
         LocalCacheBackend.default_ttl :=
           config.get (config.default_ttl cfg) 3600;
         LocalCacheBackend.files := file_system env dir |}.

(** [CacheManager._setup_backends]: [backends] is [self.backends] so far.
    The lookup of ["type"] is outside the [try]; an unknown type and a
    constructor that raises both leave the list as it is. *)
Fixpoint _setup_backends (env : environment) (backends_config : list config.t)
    (backends : list Backend) : init_error + list Backend :=
  match backends_config with
  | [] => inr backends
  | backend_config :: rest =>
      match config.type_ backend_config with
      | None => inl KeyError
      | Some backend_type =>
          if String.eqb backend_type "redis" then
            match RedisCacheBackend_init env backend_config with
            | inr backend => _setup_backends env rest (backends ++ [Redis backend])
            | inl _ => _setup_backends env rest backends
            end
          else if String.eqb backend_type "s3" then
            match S3CacheBackend_init env backend_config with
            | inr backend => _setup_backends env rest (backends ++ [S3 backend])
            | inl _ => _setup_backends env rest backends
            end
          else if String.eqb backend_type "local" then
            match LocalCacheBackend_init env backend_config with
            | inr backend => _setup_backends env rest (backends ++ [Local backend])
            | inl _ => _setup_backends env rest backends
            end
          else _setup_backends env rest backends
      end
  end.

(** [CacheManager.__init__] on a configuration whose ["backends"] key is
    absent or bound to a list. *)
Definition CacheManager_init (env : environment)
    (backends_config : option (list config.t)) : init_error + list Backend :=
  _setup_backends env (config.get backends_config []) [].

Definition has_type (cfg : config.t) : bool :=
  match config.type_ cfg with Some _ => true | None => false end.

Definition of_type (name : string) (cfg : config.t) : bool :=
  match config.type_ cfg with Some t => String.eqb t name | None => false end.

(** The backend a configuration entry contributes, if any: one of a
    known type, whose library is installed and whose required keys are
    there. *)
Definition configured_backend (env : environment) (cfg : config.t)
    : option Backend :=
  if of_type "redis" cfg then
    if REDIS_AVAILABLE env then
      match RedisCacheBackend_init env cfg with
      | inr r => Some (Redis r)
      | inl _ => None
      end
    else None
  else if of_type "s3" cfg then
    if BOTO3_AVAILABLE env && bool_decide (is_Some (config.bucket_name cfg)) then
      match S3CacheBackend_init env cfg with
      | inr s => Some (S3 s)
      | inl _ => None
      end
    else None
  else if of_type "local" cfg then
    match LocalCacheBackend_init env cfg with
    | inr l => Some (Local l)
    | inl _ => None
    end
  else None.

(** The configuration [load_cache_config] falls back on when there is no
    configuration file. *)
Definition default_cache_config : list config.t :=
  [ {| config.type_ := Some "local";
       config.host := None; config.port := None; config.db := None;
       config.prefix := None; config.default_ttl := None;
       config.bucket_name := None;
       config.cache_dir := Some ".cache/universal_recycle" |} ].

(** ** [CacheManager.get_stats]

    The statistics of a backend are a dictionary of its own making; the
    manager only collects them.  [backend_get_stats] is the [get_stats]
    method of the backends at hand. *)

Section get_stats.

Context {B Stats : Type} (backend_get_stats : M B Stats).

(** The loop over [self.backends]; [collected] is [stats["backends"]]. *)
Fixpoint collect_stats (backends : list B) (collected : list Stats) (c : Clock)
    : list Stats * list B * Clock :=
  match backends with
  | [] => (collected, [], c)
  | backend :: rest =>
      let '(o, backend', c') := backend_get_stats backend c in
      let collected' :=
        match o with
        | Ret backend_stats => collected ++ [backend_stats]
        | Raise _ => collected
        end in
      let '(all, rest', c'') := collect_stats rest collected' c' in
      (all, backend' :: rest', c'')
  end.

(** The pair of [stats["backends"]] and [stats["total_backends"]]. *)
Definition get_stats : M (list B) (list Stats * Z) :=
  fun backends c =>
    let total_backends := len backends in
    let '(all, backends', c') := collect_stats backends [] c in
    (Ret (all, total_backends), backends', c').

End get_stats.

(** ** [compute_file_hash]

    [sha256_hexdigest msg] is the [hexdigest()] of a [hashlib.sha256]
    object whose [update] calls were fed, in order, the pieces of [msg];
    a file system maps a path to the content of the file, if there is
    one. *)

Definition chunk_size : nat := 4096.

Section file_hash.

Context (sha256_hexdigest : bytes -> string).

(** The loop over [iter(lambda: f.read(4096), b"")]: [unread] is what the
    file still holds, [fed] what [update] has received; [fuel] bounds the
    number of reads. *)
Fixpoint feed_chunks (fuel : nat) (unread fed : bytes) : option bytes :=
  match fuel with
  | O => None
  | S fuel' =>
      match take chunk_size unread with
      | [] => Some fed
      | chunk => feed_chunks fuel' (drop chunk_size unread) (fed ++ chunk)
      end
  end.

Inductive io_error : Type := FileNotFoundError.

(** [open] raises when there is no such file; [None] stands for a loop
    that has not finished within the fuel. *)
Definition compute_file_hash (fuel : nat) (fs : string -> option bytes)
    (file_path : string) : option (io_error + string) :=
  match fs file_path with
  | None => Some (inl FileNotFoundError)
  | Some content =>
      match feed_chunks fuel content [] with
      | Some fed => Some (inr (sha256_hexdigest fed))
      | None => None
      end
  end.

End file_hash.
(** * Properties *)

(** Digests are computed by [vm_compute] only. *)
Opaque md5.hexdigest.

(** ** Key derivation *)

Lemma split_at_colon (a a' b b' : string) :
  colon_free a = true -> colon_free a' = true ->
  a +:+ String ":" b = a' +:+ String ":" b' -> a = a' /\ b = b'.
Proof.
  revert a'. induction a as [|x a IH]; intros [|x' a'] Ha Ha' E; simpl in *.
  - by injection E.
  - injection E as <- _. by rewrite Ascii.eqb_refl in Ha'.
  - injection E as -> _. by rewrite Ascii.eqb_refl in Ha.
  - injection E as -> E.
    apply andb_prop in Ha as [_ Ha]. apply andb_prop in Ha' as [_ Ha'].
    destruct (IH a' Ha Ha' E) as [-> ->]. done.
Qed.

(** C9, as stated, fails: two distinct build tuples over an alphabet that
    contains the separator are given the same key. *)
Lemma key_derivation_collides :
  BuildTuple "a:b" "c" "d" <> BuildTuple "a" "b:c" "d"
  /\ derive_key (BuildTuple "a:b" "c" "d") = derive_key (BuildTuple "a" "b:c" "d").
Proof. split; [discriminate | reflexivity]. Qed.

(** C9, amended: two distinct semantic tuples whose components, the last
    one apart, contain no colon are given different keys, within one
    generator and across generators. *)
Theorem key_derivation_injective (x y : cache_tuple) :
  separable x = true -> separable y = true -> x <> y ->
  derive_key x <> derive_key y.
Proof.
  intros Hx Hy Hne E. apply Hne. clear Hne.
  destruct x as [r c t | r g c | n v], y as [r' c' t' | r' g' c' | n' v'];
    simpl in Hx, Hy; try discriminate E;
    repeat match goal with
           | H : _ && _ = true |- _ => apply andb_prop in H as [? ?]
           end;
    unfold derive_key, generate_build_cache_key, generate_binding_cache_key,
      generate_dependency_cache_key in E; simpl in E;
    injection E as E.
  - apply split_at_colon in E as [-> E]; [|done..].
    apply split_at_colon in E as [-> ->]; done.
  - apply split_at_colon in E as [-> E]; [|done..].
    apply split_at_colon in E as [-> ->]; done.
  - apply split_at_colon in E as [-> ->]; done.
Qed.

Lemma key_derivation_injective_witness :
  separable (BuildTuple "recycle" "abc123" "release") = true
  /\ separable (BindingTuple "recycle" "abc123" "release") = true
  /\ derive_key (BuildTuple "recycle" "abc123" "release")
     <> derive_key (BindingTuple "recycle" "abc123" "release").
Proof.
  split; [reflexivity | split; [reflexivity |]].
  apply key_derivation_injective; [reflexivity | reflexivity | discriminate].
Defined.

(** ** The entry built by [CacheManager.set] *)

Lemma length_le_bytes (n : nat) (z : Z) : length (le_bytes n z) = n.
Proof. revert z. induction n as [|n IH]; intros z; simpl; [done | by rewrite IH]. Qed.


Lemma pickle_dumps_length (data : bytes) :
  len (pickle_dumps data) = len data + pickle_overhead (len data).
Proof.
  unfold pickle_dumps, pickle_overhead, len.
  repeat case_match;
    rewrite ?length_app, ?length_cons, ?length_app, ?length_cons,
      ?length_le_bytes, ?length_app; simpl length; lia.
Qed.


Section entry.

Context {B : Type} `{CacheBackend.t B}.


Lemma make_entry_no_ttl key data metadata (bs : list B) c :
  CacheManager.make_entry key data None metadata bs c
  = (Ret (entry_of key data (clock_now c) None metadata), bs, advance c).
Proof. reflexivity. Qed.

Lemma make_entry_zero_ttl key data metadata (bs : list B) c :
  CacheManager.make_entry key data (Some 0) metadata bs c
  = (Ret (entry_of key data (clock_now c) None metadata), bs, advance c).
Proof. reflexivity. Qed.

Lemma make_entry_ttl key data secs metadata (bs : list B) c :
  secs <> 0 ->
  CacheManager.make_entry key data (Some secs) metadata bs c
  = if representable (clock_now c) secs then
      (Ret (entry_of key data (clock_now (advance c))
              (Some (clock_now c + secs * 1000000)) metadata),
       bs, advance (advance c))
    else (Raise OverflowError, bs, advance c).
Proof.
  intros Hs. apply Z.eqb_neq in Hs.
  unfold CacheManager.make_entry, bind, datetime_add_seconds, representable.
  rewrite Hs. simpl. by destruct (_ && _).
Qed.

Lemma make_entry_size key data ttl metadata (bs bs' : list B) c c' e :
  CacheManager.make_entry key data ttl metadata bs c = (Ret e, bs', c') ->
  CacheEntry.key e = key /\ CacheEntry.data e = data
  /\ CacheEntry.size_bytes e = len (pickle_dumps data).
Proof.
  destruct ttl as [secs|]; [destruct (decide (secs = 0)) as [->|Hs]|].
  - rewrite make_entry_zero_ttl. by intros [= <- _ _].
  - rewrite make_entry_ttl by done.
    destruct (representable _ _); [by intros [= <- _ _] | done].
  - rewrite make_entry_no_ttl. by intros [= <- _ _].
Qed.

End entry.

(** C7, as stated, fails: for the payload [b"hello"], of 5 bytes, the
    entry records the 20 bytes of its pickle. *)
Lemma size_bytes_differs_from_payload_length :
  CacheManager.make_entry (B := Backend) "k" hello None None [] (ticking t0 1)
  = (Ret (entry_of "k" hello t0 None None), [], advance (ticking t0 1))
  /\ CacheEntry.size_bytes (entry_of "k" hello t0 None None) = 20
  /\ len (CacheEntry.data (entry_of "k" hello t0 None None)) = 5.
Proof. repeat split. Qed.

(** C7, amended: the entry constructed by [CacheManager.set] has
    [size_bytes] equal to the length of the pickle serialization of the
    payload, [len(pickle.dumps(data))], which exceeds the byte length of
    the payload itself by the 9 to 18 bytes of pickle framing. *)
Theorem size_bytes_is_pickled_length
    (key : string) (data : bytes) (ttl : option Z)
    (metadata : option (gmap string string))
    (bs bs' : list Backend) (c c' : Clock) (e : CacheEntry.t) :
  CacheManager.make_entry key data ttl metadata bs c = (Ret e, bs', c') ->
  CacheEntry.data e = data
  /\ CacheEntry.size_bytes e = len (pickle_dumps data)
  /\ CacheEntry.size_bytes e = len data + pickle_overhead (len data)
  /\ len data + 9 <= CacheEntry.size_bytes e <= len data + 18.
Proof.
  intros E. apply make_entry_size in E as (_ & Hd & Hs).
  rewrite Hs, pickle_dumps_length. repeat split; try done;
    unfold pickle_overhead; repeat case_match; lia.
Qed.

Lemma size_bytes_is_pickled_length_witness :
  CacheManager.make_entry (B := Backend) "k" hello (Some 60) None []
    (ticking t0 1)
  = (Ret (entry_of "k" hello (t0 + 1) (Some (t0 + 60000000)) None), [],
     advance (advance (ticking t0 1)))
  /\ CacheEntry.size_bytes
       (entry_of "k" hello (t0 + 1) (Some (t0 + 60000000)) None)
     = len hello + pickle_overhead (len hello).
Proof.
  split; [reflexivity |].
  eapply (size_bytes_is_pickled_length "k" hello (Some 60) None [] []
            (ticking t0 1)).
  reflexivity.
Defined.

(** ** A time to live of zero *)

Lemma redis_set_no_expiry (e : CacheEntry.t) (r : RedisCacheBackend.t) (c : Clock) :
  CacheEntry.expires_at e = None ->
  RedisCacheBackend.set e r c
  = if RedisCacheBackend.default_ttl r <=? 0 then (Ret false, r, c)
    else
      (Ret true,
       RedisCacheBackend.with_client r
         (<[RedisCacheBackend._make_key r (CacheEntry.key e) :=
              (CacheEntry.to_dict e,
               clock_now c + RedisCacheBackend.default_ttl r * 1000000)]>
            (RedisCacheBackend.redis_client r)),
       advance c).
Proof.
  intros He. unfold RedisCacheBackend.set, try_except, bind, self. simpl.
  rewrite He. unfold RedisCacheBackend.client, within, redis.setex. simpl.
  destruct r as [p d db]; simpl. by destruct (d <=? 0).
Qed.


(** ** No backend, and backends that raise *)

Section never_raises.

Context {B : Type} `{CacheBackend.t B}.

Lemma get_returns key (bs : list B) c :
  exists r, (CacheManager.get key bs c).1.1 = Ret r.
Proof.
  revert c. induction bs as [|b bs IH]; intros c; simpl; [by eexists|].
  destruct (CacheBackend.get key b c) as [[[[e|]|x] b'] c'];
    [by eexists | |];
    destruct (IH c') as [r Hr];
    destruct (CacheManager.get key bs c') as [[o bs'] c'']; by exists r.
Qed.

Lemma set_all_returns entry success (bs : list B) c :
  exists r, (CacheManager.set_all entry success bs c).1.1 = Ret r.
Proof.
  revert success c. induction bs as [|b bs IH]; intros success c; simpl;
    [by eexists|].
  destruct (CacheBackend.set entry b c) as [[o b'] c'].
  match goal with
  | |- context [CacheManager.set_all entry ?s bs c'] =>
      destruct (IH s c') as [r Hr];
      destruct (CacheManager.set_all entry s bs c') as [[o' bs'] c'']
  end.
  by exists r.
Qed.

Lemma delete_returns key success (bs : list B) c :
  exists r, (CacheManager.delete_all key success bs c).1.1 = Ret r.
Proof.
  revert success c. induction bs as [|b bs IH]; intros success c; simpl;
    [by eexists|].
  destruct (CacheBackend.delete key b c) as [[o b'] c'].
  match goal with
  | |- context [CacheManager.delete_all key ?s bs c'] =>
      destruct (IH s c') as [r Hr];
      destruct (CacheManager.delete_all key s bs c') as [[o' bs'] c'']
  end.
  by exists r.
Qed.

Lemma exists_returns key (bs : list B) c :
  exists r, (CacheManager.exists_ key bs c).1.1 = Ret r.
Proof.
  revert c. induction bs as [|b bs IH]; intros c; simpl; [by eexists|].
  destruct (CacheBackend.exists_ key b c) as [[[[|]|x] b'] c'];
    [by eexists | |];
    destruct (IH c') as [r Hr];
    destruct (CacheManager.exists_ key bs c') as [[o bs'] c'']; by exists r.
Qed.

Lemma clear_returns success (bs : list B) c :
  exists r, (CacheManager.clear_all success bs c).1.1 = Ret r.
Proof.
  revert success c. induction bs as [|b bs IH]; intros success c; simpl;
    [by eexists|].
  destruct (CacheBackend.clear b c) as [[o b'] c'].
  match goal with
  | |- context [CacheManager.clear_all ?s bs c'] =>
      destruct (IH s c') as [r Hr];
      destruct (CacheManager.clear_all s bs c') as [[o' bs'] c'']
  end.
  by exists r.
Qed.

(** [set] either fails on its own date arithmetic, before any backend
    is called, or runs the write loop on the entry it built. *)
Lemma set_unfold key data ttl metadata (bs : list B) c :
  CacheManager.set key data ttl metadata bs c
  = if expiry_overflows ttl c then (Raise OverflowError, bs, advance c)
    else
      match CacheManager.make_entry key data ttl metadata bs c with
      | (Ret e, _, c') => CacheManager.set_all e false bs c'
      | (Raise x, bs', c') => (Raise x, bs', c')
      end.
Proof.
  unfold CacheManager.set, bind at 1, expiry_overflows.
  destruct ttl as [secs|]; [destruct (decide (secs = 0)) as [->|Hs]|].
  - by rewrite make_entry_zero_ttl.
  - rewrite make_entry_ttl by done. apply Z.eqb_neq in Hs. rewrite Hs. simpl.
    by destruct (representable _ _).
  - by rewrite make_entry_no_ttl.
Qed.

End never_raises.

(** C5, as stated, fails: with no backend [clear] returns true. *)
Lemma clear_without_backends_succeeds :
  (CacheManager.clear (B := Backend) [] (ticking t0 1)).1.1 = Ret true
  /\ (CacheManager.clear (B := Backend) [] (ticking t0 1)).1.1 <> Ret false.
Proof. split; [reflexivity | discriminate]. Qed.

(** C5, amended: with no active backend [get] returns absent, [delete]
    and [exists] return false, [set] returns false, and [clear] returns
    true (no backend failed to clear).  Whatever the backends do, no
    exception of theirs leaves the manager: [get], [delete], [exists] and
    [clear] always return a value, and so does [set], which raises only
    the [OverflowError] of its own date arithmetic, before it calls any
    backend, when [now + ttl] is not a [datetime]. *)
Theorem manager_absorbs_backend_failures {B : Type} `{CacheBackend.t B}
    (key : string) (data : bytes) (ttl : option Z)
    (metadata : option (gmap string string)) (bs : list B) (c : Clock) :
  (CacheManager.get (B := B) key [] c = (Ret None, [], c)
   /\ CacheManager.delete (B := B) key [] c = (Ret false, [], c)
   /\ CacheManager.exists_ (B := B) key [] c = (Ret false, [], c)
   /\ CacheManager.clear (B := B) [] c = (Ret true, [], c)
   /\ (CacheManager.set (B := B) key data ttl metadata [] c).1.1
      = if expiry_overflows ttl c then Raise OverflowError else Ret false)
  /\ (exists r, (CacheManager.get key bs c).1.1 = Ret r)
  /\ (exists r, (CacheManager.delete key bs c).1.1 = Ret r)
  /\ (exists r, (CacheManager.exists_ key bs c).1.1 = Ret r)
  /\ (exists r, (CacheManager.clear bs c).1.1 = Ret r)
  /\ (if expiry_overflows ttl c
      then CacheManager.set key data ttl metadata bs c
           = (Raise OverflowError, bs, advance c)
      else exists r, (CacheManager.set key data ttl metadata bs c).1.1 = Ret r).
Proof.
  assert (Hset : forall l : list B,
             if expiry_overflows ttl c
             then CacheManager.set key data ttl metadata l c
                  = (Raise OverflowError, l, advance c)
             else exists e c',
                 CacheManager.set key data ttl metadata l c
                 = CacheManager.set_all e false l c').
  { intros l. rewrite set_unfold. destruct (expiry_overflows ttl c) eqn:Ho; [done|].
    destruct ttl as [secs|]; [destruct (decide (secs = 0)) as [->|Hs]|].
    - rewrite make_entry_zero_ttl. by eexists _, _.
    - rewrite make_entry_ttl by done. unfold expiry_overflows in Ho.
      apply Z.eqb_neq in Hs. rewrite Hs in Ho. simpl in Ho.
      destruct (representable _ _); [by eexists _, _ | done].
    - rewrite make_entry_no_ttl. by eexists _, _. }
  split; [repeat split|].
  - specialize (Hset []). destruct (expiry_overflows ttl c).
    + by rewrite Hset.
    + destruct Hset as (e & c' & ->). done.
  - split; [apply get_returns|]. split; [apply delete_returns|].
    split; [apply exists_returns|]. split; [apply clear_returns|].
    specialize (Hset bs). destruct (expiry_overflows ttl c); [done|].
    destruct Hset as (e & c' & ->). apply set_all_returns.
Qed.

(** The base class, whose methods all raise, is absorbed as well. *)
Example manager_over_raising_backend :
  CacheManager.get "k" [CacheBackend.Base] (ticking t0 1)
  = (Ret None, [CacheBackend.Base], ticking t0 1)
  /\ CacheManager.clear [CacheBackend.Base] (ticking t0 1)
     = (Ret false, [CacheBackend.Base], ticking t0 1)
  /\ CacheManager.set "k" hello (Some 1000000000000) None [CacheBackend.Base]
       (ticking t0 1)
     = (Raise OverflowError, [CacheBackend.Base], advance (ticking t0 1)).
Proof. repeat split. Qed.

(** ** The methods of the backends, as equations *)

Lemma local_delete_eq key (l : LocalCacheBackend.t) c :
  LocalCacheBackend.delete key l c
  = match LocalCacheBackend.files l !! LocalCacheBackend._get_cache_path key with
    | Some _ =>
        (Ret true,
         LocalCacheBackend.with_files l
           (delete (LocalCacheBackend._get_cache_path key)
                   (LocalCacheBackend.files l)), c)
    | None => (Ret false, l, c)
    end.
Proof.
  unfold LocalCacheBackend.delete, try_except, bind, self. simpl.
  by destruct (_ !! _).
Qed.

Lemma local_get_eq key (l : LocalCacheBackend.t) c :
  LocalCacheBackend.get key l c
  = match LocalCacheBackend.files l !! LocalCacheBackend._get_cache_path key with
    | None => (Ret None, l, c)
    | Some d =>
        match CacheEntry.d_expires_at d with
        | None => (Ret (Some (CacheEntry.from_dict d)), l, c)
        | Some at_ =>
            if at_ <? clock_now c then
              (Ret None,
               LocalCacheBackend.with_files l
                 (delete (LocalCacheBackend._get_cache_path key)
                         (LocalCacheBackend.files l)), advance c)
            else (Ret (Some (CacheEntry.from_dict d)), l, advance c)
        end
    end.
Proof.
  unfold LocalCacheBackend.get, try_except, bind at 1, self. simpl.
  destruct (_ !! _) as [d|] eqn:Hd; [|done].
  unfold bind, CacheEntry.is_expired. simpl.
  destruct (CacheEntry.d_expires_at d) as [at_|]; [|done]. simpl.
  destruct (at_ <? clock_now c); [|done].
  rewrite local_delete_eq. simpl. by rewrite Hd.
Qed.

Lemma local_set_eq e (l : LocalCacheBackend.t) c :
  LocalCacheBackend.set e l c
  = (Ret true,
     LocalCacheBackend.with_files l
       (<[LocalCacheBackend._get_cache_path (CacheEntry.key e) :=
            CacheEntry.to_dict e]> (LocalCacheBackend.files l)), c).
Proof. reflexivity. Qed.

Lemma local_exists_eq key (l : LocalCacheBackend.t) c :
  LocalCacheBackend.exists_ key l c
  = (Ret (bool_decide
            (is_Some (LocalCacheBackend.files l
                        !! LocalCacheBackend._get_cache_path key))), l, c).
Proof. reflexivity. Qed.

Lemma redis_with_client_id (r : RedisCacheBackend.t) :
  RedisCacheBackend.with_client r (RedisCacheBackend.redis_client r) = r.
Proof. by destruct r. Qed.

Lemma redis_delete_eq key (r : RedisCacheBackend.t) c :
  RedisCacheBackend.delete key r c
  = (Ret (bool_decide
            (is_Some (redis.lookup_at (RedisCacheBackend.redis_client r)
                        (RedisCacheBackend._make_key r key) (clock_now c)))),
     RedisCacheBackend.with_client r
       (delete (RedisCacheBackend._make_key r key)
               (RedisCacheBackend.redis_client r)),
     advance c).
Proof.
  unfold RedisCacheBackend.delete, try_except, bind, self,
    RedisCacheBackend.client, within, redis.delete, bind, now, modify. simpl.
  by destruct (redis.lookup_at _ _ _).
Qed.

Lemma redis_get_eq key (r : RedisCacheBackend.t) c :
  RedisCacheBackend.get key r c
  = match redis.lookup_at (RedisCacheBackend.redis_client r)
            (RedisCacheBackend._make_key r key) (clock_now c) with
    | None => (Ret None, r, advance c)
    | Some d =>
        match CacheEntry.d_expires_at d with
        | None => (Ret (Some (CacheEntry.from_dict d)), r, advance c)
        | Some at_ =>
            if at_ <? clock_now (advance c) then
              (Ret None,
               RedisCacheBackend.with_client r
                 (delete (RedisCacheBackend._make_key r key)
                         (RedisCacheBackend.redis_client r)),
               advance (advance (advance c)))
            else (Ret (Some (CacheEntry.from_dict d)), r, advance (advance c))
        end
    end.
Proof.
  unfold RedisCacheBackend.get, try_except, bind at 1. simpl.
  unfold bind at 1. unfold RedisCacheBackend.client, within, redis.get,
    bind at 1, now. simpl. unfold bind at 1, self, ret. simpl.
  rewrite redis_with_client_id.
  destruct (redis.lookup_at _ _ _) as [d|]; [|done].
  unfold bind, CacheEntry.is_expired. simpl.
  destruct (CacheEntry.d_expires_at d) as [at_|]; [|done]. simpl.
  by destruct (_ <? _).
Qed.

Lemma redis_set_expiring e at_ (r : RedisCacheBackend.t) c :
  CacheEntry.expires_at e = Some at_ ->
  RedisCacheBackend.set e r c
  = let ttl := whole_seconds_between at_ (clock_now c) in
    if ttl <=? 0 then (Ret false, r, advance c)
    else
      (Ret true,
       RedisCacheBackend.with_client r
         (<[RedisCacheBackend._make_key r (CacheEntry.key e) :=
              (CacheEntry.to_dict e, clock_now (advance c) + ttl * 1000000)]>
            (RedisCacheBackend.redis_client r)),
       advance (advance c)).
Proof.
  intros He. unfold RedisCacheBackend.set, try_except, bind, self. simpl.
  rewrite He. simpl.
  destruct (whole_seconds_between at_ (clock_now c) <=? 0) eqn:Ht; [done|].
  unfold RedisCacheBackend.client, within, redis.setex. rewrite Ht. done.
Qed.

Lemma redis_exists_eq key (r : RedisCacheBackend.t) c :
  RedisCacheBackend.exists_ key r c
  = (Ret (bool_decide
            (is_Some (redis.lookup_at (RedisCacheBackend.redis_client r)
                        (RedisCacheBackend._make_key r key) (clock_now c)))),
     r, advance c).
Proof.
  unfold RedisCacheBackend.exists_, try_except, bind, self,
    RedisCacheBackend.client, within, redis.exists_, bind, now. simpl.
  rewrite redis_with_client_id. by destruct (redis.lookup_at _ _ _).
Qed.

Lemma s3_with_client_id (s : S3CacheBackend.t) :
  S3CacheBackend.with_client s (S3CacheBackend.s3_client s) = s.
Proof. by destruct s. Qed.

Lemma s3_delete_eq key (s : S3CacheBackend.t) c :
  S3CacheBackend.delete key s c
  = (Ret true,
     S3CacheBackend.with_client s
       (delete (S3CacheBackend._make_key s key) (S3CacheBackend.s3_client s)),
     c).
Proof. reflexivity. Qed.

Lemma s3_get_eq key (s : S3CacheBackend.t) c :
  S3CacheBackend.get key s c
  = match S3CacheBackend.s3_client s !! S3CacheBackend._make_key s key with
    | None => (Ret None, s, c)
    | Some o =>
        match boto3.m_expires_at (boto3.user_metadata o) with
        | None => (Ret (Some (CacheEntry.from_dict (boto3.body o))), s, c)
        | Some at_ =>
            if at_ <? clock_now c then
              (Ret None,
               S3CacheBackend.with_client s
                 (delete (S3CacheBackend._make_key s key)
                         (S3CacheBackend.s3_client s)),
               advance c)
            else (Ret (Some (CacheEntry.from_dict (boto3.body o))), s,
                  advance c)
        end
    end.
Proof.
  destruct s as [name p ttl objects].
  unfold S3CacheBackend.get, try_except, bind, self, S3CacheBackend.client,
    within, boto3.head_object, boto3.get_object, bind, self, ret. simpl.
  destruct (objects !! _) as [o|] eqn:Ho; simpl; [|done].
  destruct (boto3.m_expires_at _) as [at_|]; simpl;
    [destruct (_ <? _); simpl|]; by rewrite ?Ho.
Qed.

Lemma s3_set_eq e (s : S3CacheBackend.t) c :
  S3CacheBackend.set e s c
  = (Ret true,
     S3CacheBackend.with_client s
       (<[S3CacheBackend._make_key s (CacheEntry.key e) :=
            {| boto3.body := CacheEntry.to_dict e;
               boto3.user_metadata :=
                 {| boto3.m_created_at := CacheEntry.created_at e;
                    boto3.m_size_bytes := CacheEntry.size_bytes e;
                    boto3.m_expires_at := CacheEntry.expires_at e |} |}]>
          (S3CacheBackend.s3_client s)),
     c).
Proof.
  unfold S3CacheBackend.set, try_except, bind, self, S3CacheBackend.client,
    within, boto3.put_object, modify. simpl. by destruct (CacheEntry.expires_at e).
Qed.

Lemma s3_exists_eq key (s : S3CacheBackend.t) c :
  S3CacheBackend.exists_ key s c
  = (Ret (bool_decide
            (is_Some (S3CacheBackend.s3_client s
                        !! S3CacheBackend._make_key s key))), s, c).
Proof.
  unfold S3CacheBackend.exists_, try_except, bind, self, S3CacheBackend.client,
    within, boto3.head_object, bind, self. simpl.
  destruct (_ !! _); simpl; by rewrite ?s3_with_client_id.
Qed.

(** ** The methods of a backend of any class *)

Ltac by_class :=
  cbn [CacheBackend.get CacheBackend.set CacheBackend.delete
       CacheBackend.exists_ any_backend dispatch
       server_tick evicted held served_at held_expiry].

Lemma evicted_absent (b : Backend) key : held b key = None -> evicted b key = b.
Proof.
  destruct b as [[p d db]|[n p d objs]|[dir d fs]]; simpl;
    unfold RedisCacheBackend.with_client, S3CacheBackend.with_client,
      LocalCacheBackend.with_files; simpl; intros E;
    do 2 f_equal; apply delete_id; by destruct (_ !! _).
Qed.

Lemma held_evicted (b : Backend) key : held (evicted b key) key = None.
Proof. destruct b; simpl; by rewrite lookup_delete_eq. Qed.

Lemma served_at_held (b : Backend) key t d :
  served_at b key t = Some d -> held b key = Some d.
Proof.
  destruct b; simpl; try done. unfold redis.lookup_at.
  destruct (_ !! _) as [[d' dl]|]; [|done]. by destruct (_ <=? _); intros [= ->].
Qed.

Lemma served_at_evicted (b : Backend) key t : served_at (evicted b key) key t = None.
Proof.
  destruct b; simpl; unfold redis.lookup_at; simpl; by rewrite lookup_delete_eq.
Qed.

Lemma backend_delete_eq (b : Backend) key c :
  exists r, CacheBackend.delete key b c = (Ret r, evicted b key, server_tick b c).
Proof.
  destruct b as [r|s|l]; by_class.
  - rewrite redis_delete_eq. by eexists.
  - rewrite s3_delete_eq. by eexists.
  - rewrite local_delete_eq.
    destruct (_ !! _) eqn:E; [by eexists|].
    exists false. f_equal. f_equal.
    symmetry. by apply (evicted_absent (Local l)).
Qed.

Lemma backend_get_eq (b : Backend) key c :
  CacheBackend.get key b c
  = match served_at b key (clock_now c) with
    | None => (Ret None, b, server_tick b c)
    | Some d =>
        match held_expiry b key with
        | None => (Ret (Some (CacheEntry.from_dict d)), b, server_tick b c)
        | Some at_ =>
            if at_ <? clock_now (server_tick b c) then
              (Ret None, evicted b key,
               server_tick b (advance (server_tick b c)))
            else (Ret (Some (CacheEntry.from_dict d)), b,
                  advance (server_tick b c))
        end
    end.
Proof.
  destruct b as [r|s|l]; by_class.
  - rewrite redis_get_eq. unfold redis.lookup_at.
    destruct (_ !! _) as [[d dl]|]; [|done].
    destruct (_ <=? dl); [|done].
    destruct (CacheEntry.d_expires_at d); [|done]. by destruct (_ <? _).
  - rewrite s3_get_eq. destruct (_ !! _) as [o|]; simpl; [|done].
    destruct (boto3.m_expires_at _); [|done]. by destruct (_ <? _).
  - rewrite local_get_eq. destruct (_ !! _) as [d|]; [|done].
    destruct (CacheEntry.d_expires_at d); [|done]. by destruct (_ <? _).
Qed.

Lemma backend_set_stores (b b' : Backend) e c c' :
  CacheBackend.set e b c = (Ret true, b', c') ->
  held b' (CacheEntry.key e) = Some (CacheEntry.to_dict e).
Proof.
  destruct b as [r|s|l]; by_class.
  - destruct (CacheEntry.expires_at e) as [at_|] eqn:He.
    + rewrite (redis_set_expiring e at_) by done. simpl.
      destruct (_ <=? 0); intros [= <- _]. simpl. by rewrite lookup_insert_eq.
    + rewrite redis_set_no_expiry by done.
      destruct (_ <=? 0); intros [= <- _]. simpl. by rewrite lookup_insert_eq.
  - rewrite s3_set_eq. intros [= <- _]. simpl. by rewrite lookup_insert_eq.
  - rewrite local_set_eq. intros [= <- _]. simpl. by rewrite lookup_insert_eq.
Qed.

Lemma server_tick_readings (b : Backend) c : readings (server_tick b c) = readings c.
Proof. by destruct b. Qed.

Lemma server_tick_pos (b : Backend) c :
  (pos c <= pos (server_tick b c) <= S (pos c))%nat.
Proof. destruct b; simpl; lia. Qed.

Lemma held_expiry_served (b : Backend) key t d :
  well_formed b -> served_at b key t = Some d ->
  held_expiry b key = CacheEntry.d_expires_at d.
Proof.
  destruct b as [r|s|l]; by_class; simpl.
  - intros _. unfold redis.lookup_at.
    destruct (_ !! _) as [[d' dl]|]; [|done]. by destruct (_ <=? _); intros [= ->].
  - intros Hwf. destruct (_ !! _) as [o|] eqn:Ho; [|done].
    intros [= <-]. by apply (Hwf _ _ Ho).
  - intros _. by destruct (_ !! _); intros [= ->].
Qed.

(** [set], [delete] and the eviction of a read keep a backend well formed. *)
Lemma well_formed_evicted (b : Backend) key : well_formed b -> well_formed (evicted b key).
Proof.
  destruct b as [r|s|l]; simpl; try done.
  intros Hwf k o [_ Ho]%lookup_delete_Some. by apply (Hwf k).
Qed.

Lemma well_formed_set (b b' : Backend) e c o c' :
  well_formed b -> CacheBackend.set e b c = (o, b', c') -> well_formed b'.
Proof.
  destruct b as [r|s|l]; by_class.
  - intros _. by destruct (RedisCacheBackend.set e r c) as [[? ?] ?]; intros [= _ <- _].
  - rewrite s3_set_eq. intros Hwf [= _ <- _]. simpl.
    intros k o' [[_ <-]|[_ Ho]]%lookup_insert_Some; simpl.
    + by destruct (CacheEntry.expires_at e).
    + by apply (Hwf k).
  - intros _. by destruct (LocalCacheBackend.set e l c) as [[? ?] ?]; intros [= _ <- _].
Qed.

(** ** Expired entries are evicted by the read that finds them *)

(** C3: a backend [get] for the key of a stored entry whose [expires_at]
    lies in the past returns absent, and what it leaves behind is what its
    own [delete] of that key, which it runs before returning, leaves:
    the entry is gone.  This holds for the Redis, S3 and local backends. *)
Theorem expired_entry_evicted_on_read
    (b : Backend) (key : string) (c : Clock) (d : CacheEntry.dict) (at_ : Z) :
  well_formed b ->
  served_at b key (clock_now c) = Some d ->
  CacheEntry.d_expires_at d = Some at_ ->
  (forall n : nat, (pos c <= n)%nat -> at_ < readings c n) ->
  exists (c_del c' : Clock) (r : bool),
    CacheBackend.get key b c = (Ret None, evicted b key, c')
    /\ CacheBackend.delete key b c_del = (Ret r, evicted b key, c')
    /\ held (evicted b key) key = None
    /\ forall t, served_at (evicted b key) key t = None.
Proof.
  intros Hwf Hs Hd Hpast.
  pose proof (held_expiry_served b key _ d Hwf Hs) as He. rewrite Hd in He.
  destruct (backend_delete_eq b key (advance (server_tick b c))) as [r Hr].
  exists (advance (server_tick b c)), (server_tick b (advance (server_tick b c))), r.
  split; [|split; [done | split; [apply held_evicted | apply served_at_evicted]]].
  rewrite backend_get_eq, Hs, He.
  assert ((at_ <? clock_now (server_tick b c)) = true) as ->; [|done].
  apply Z.ltb_lt. unfold clock_now. rewrite server_tick_readings.
  apply Hpast. apply server_tick_pos.
Qed.

Lemma expired_entry_evicted_on_read_witness :
  let b := s3_bucket {[ "universal_recycle/k" :=
             {| boto3.body := dict_of "k" hello (t0 - 5000000) (Some (t0 - 1000000));
                boto3.user_metadata :=
                  {| boto3.m_created_at := t0 - 5000000;
                     boto3.m_size_bytes := 20;
                     boto3.m_expires_at := Some (t0 - 1000000) |} |} ]} in
  served_at b "k" t0
    = Some (dict_of "k" hello (t0 - 5000000) (Some (t0 - 1000000)))
  /\ exists (c_del c' : Clock) (r : bool),
       CacheBackend.get "k" b (ticking t0 1) = (Ret None, evicted b "k", c')
       /\ CacheBackend.delete "k" b c_del = (Ret r, evicted b "k", c')
       /\ held (evicted b "k") "k" = None
       /\ forall t, served_at (evicted b "k") "k" t = None.
Proof.
  intros b. split; [reflexivity |].
  apply (expired_entry_evicted_on_read b "k" (ticking t0 1)
           (dict_of "k" hello (t0 - 5000000) (Some (t0 - 1000000)))
           (t0 - 1000000)).
  - unfold b, s3_bucket. cbn [well_formed S3CacheBackend.s3_client].
    intros k o [<- <-]%lookup_singleton_Some. reflexivity.
  - reflexivity.
  - reflexivity.
  - intros n _. simpl. lia.
Defined.

(** ** What [delete] reports *)

(** The local and the Redis backend report whether an entry was there. *)
Lemma local_delete_reports key (l : LocalCacheBackend.t) c :
  exists l' r,
    LocalCacheBackend.delete key l c = (Ret r, l', c)
    /\ (r = true <-> is_Some (held (Local l) key))
    /\ held (Local l') key = None.
Proof.
  rewrite local_delete_eq. simpl.
  destruct (_ !! _) as [d|] eqn:E; eexists _, _; (split; [done|]); simpl.
  - rewrite lookup_delete_eq. by split; [|done].
  - rewrite E. split; [|done]. split; [done | by intros [? ?]].
Qed.

Lemma redis_delete_reports key (r : RedisCacheBackend.t) c :
  exists r' res,
    RedisCacheBackend.delete key r c = (Ret res, r', advance c)
    /\ (res = true <-> is_Some (served_at (Redis r) key (clock_now c)))
    /\ held (Redis r') key = None.
Proof.
  rewrite redis_delete_eq. eexists _, _. split; [done|]. simpl.
  rewrite lookup_delete_eq. split; [|done]. apply bool_decide_eq_true.
Qed.

(** C6 fails on the S3 backend: [delete] of a key that holds no entry
    returns true, as it does for every key. *)
Theorem s3_delete_of_absent_key_returns_true :
  held (s3_bucket ∅) "missing" = None
  /\ CacheBackend.delete "missing" (s3_bucket ∅) (ticking t0 1)
     = (Ret true, s3_bucket ∅, ticking t0 1)
  /\ forall (s : S3CacheBackend.t) (key : string) (c : Clock),
       result (S3CacheBackend.delete key s c) = Ret true.
Proof. repeat split. Qed.

(** ** The sign of a duration in whole seconds *)

Lemma round_half_even_bounds n d :
  n / d <= float.round_half_even n d <= n / d + 1.
Proof.
  unfold float.round_half_even. cbv zeta.
  repeat case_match; lia.
Qed.

Lemma ilog2_negative n d : 0 < n < d -> float.ilog2 n d < 0.
Proof.
  intros [Hn Hd]. unfold float.ilog2, float.scaled.
  assert (Z.log2 n <= Z.log2 d) as Hlog by (apply Z.log2_le_mono; lia).
  destruct (Z.leb_spec 0 (Z.log2 n - Z.log2 d)) as [Hs|Hs].
  - replace (Z.log2 n - Z.log2 d) with 0 by lia. rewrite Z.pow_0_r, Z.mul_1_r.
    destruct (Z.leb_spec d n); lia.
  - destruct (_ <=? _); lia.
Qed.

Lemma ilog2_lower n d :
  0 < d <= n -> 0 <= float.ilog2 n d /\ d * 2 ^ float.ilog2 n d <= n.
Proof.
  intros [Hd Hn]. unfold float.ilog2, float.scaled.
  assert (Z.log2 d <= Z.log2 n) as Hlog by (apply Z.log2_le_mono; lia).
  set (s := Z.log2 n - Z.log2 d).
  assert (0 <= s) as Hs by (unfold s; lia).
  destruct (Z.leb_spec 0 s) as [_|]; [|lia].
  destruct (Z.leb_spec (d * 2 ^ s) n) as [Hle|Hgt]; [done|].
  assert (s <> 0) as Hs0.
  { intros E. rewrite E, Z.pow_0_r in Hgt. lia. }
  split; [lia|].
  pose proof (Z.log2_spec d Hd) as [_ Hdu].
  pose proof (Z.log2_spec n ltac:(lia)) as [Hnl _].
  replace (Z.log2 n) with (Z.succ (Z.log2 d) + (s - 1)) in Hnl by (unfold s; lia).
  pose proof (Z.log2_nonneg d).
  rewrite Z.pow_add_r in Hnl by lia.
  assert (0 < 2 ^ (s - 1)) by (apply Z.pow_pos_nonneg; lia).
  nia.
Qed.

Lemma to_int_true_divide_sign n d :
  0 < d < 2 ^ 53 ->
  float.to_int (float.true_divide n d) <= 0 <-> n < d.
Proof.
  intros [Hd Hd53]. unfold float.true_divide.
  destruct (Z.eqb_spec n 0) as [->|Hn0]; [by cbn; lia|].
  destruct (Z.lt_trichotomy n 0) as [Hneg|[?|Hpos]]; [|done|].
  - (* a negative duration *)
    split; [lia|]. intros _.
    set (e := float.ilog2 (Z.abs n) d - 52).
    destruct (float.scaled (Z.abs n) d e) as [N D] eqn:Hsc.
    assert (0 <= float.round_half_even N D) as Hm.
    { pose proof (round_half_even_bounds N D).
      assert (0 <= N /\ 0 < D) as [? ?].
      { revert Hsc. unfold float.scaled. destruct (Z.leb_spec 0 e) as [He|He];
          intros [= <- <-]; split; try lia.
        all: try (apply Z.mul_pos_pos; [done|]; apply Z.pow_pos_nonneg; lia).
        all: apply Z.mul_nonneg_nonneg; [lia|]; apply Z.pow_nonneg; lia. }
      assert (0 <= N / D) by (apply Z.div_pos; lia). lia. }
    unfold float.to_int. cbn [float.mantissa float.exponent].
    rewrite Z.sgn_neg by done.
    destruct (Z.leb_spec 0 e).
    + assert (0 <= 2 ^ e) by (apply Z.pow_nonneg; lia).
      nia.
    + replace (-1 * float.round_half_even N D)
        with (- float.round_half_even N D) by lia.
      assert (0 < 2 ^ (- e)) by (apply Z.pow_pos_nonneg; lia).
      rewrite Z.quot_opp_l by lia.
      assert (0 <= Z.quot (float.round_half_even N D) (2 ^ (- e)))
        by (by apply Z.quot_pos).
      lia.
  - rewrite Z.abs_eq, Z.sgn_pos by lia.
    destruct (Z.lt_ge_cases n d) as [Hlt|Hge].
    + (* less than a second *)
      split; [done|]. intros _.
      pose proof (ilog2_negative n d ltac:(lia)) as He.
      set (e := float.ilog2 n d) in *.
      unfold float.scaled, float.to_int.
      destruct (Z.leb_spec 0 (e - 52)); [lia|].
      cbn [float.mantissa float.exponent].
      destruct (Z.leb_spec 0 (e - 52)); [lia|].
      rewrite Z.mul_1_l.
      set (P := 2 ^ (- (e - 52))).
      assert (2 ^ 53 <= P) as HP.
      { unfold P. apply Z.pow_le_mono_r; lia. }
      pose proof (round_half_even_bounds (n * P) d) as [_ Hup].
      assert (n * P / d < P - 1) as Hq.
      { apply Z.div_lt_upper_bound; [done|]. nia. }
      assert (0 <= n * P / d) by (apply Z.div_pos; nia).
      rewrite Z.quot_small; [lia|].
      pose proof (round_half_even_bounds (n * P) d). lia.
    + (* a second or more *)
      split; [|lia]. intros Hle. exfalso.
      pose proof (ilog2_lower n d ltac:(lia)) as [He Hlow].
      set (e := float.ilog2 n d) in *.
      revert Hle. unfold float.scaled, float.to_int.
      destruct (Z.leb_spec 0 (e - 52)) as [Hbig|Hsmall];
        cbn [float.mantissa float.exponent];
        destruct (Z.leb_spec 0 (e - 52)); try lia; rewrite Z.mul_1_l.
      * assert (0 < 2 ^ (e - 52)) as Hp by (apply Z.pow_pos_nonneg; lia).
        pose proof (round_half_even_bounds n (d * 2 ^ (e - 52))) as [Hlo _].
        assert (1 <= n / (d * 2 ^ (e - 52))).
        { apply Z.div_le_lower_bound; [nia|].
          replace e with ((e - 52) + 52) in Hlow by lia.
          rewrite Z.pow_add_r in Hlow by lia.
          assert (1 <= 2 ^ 52) by lia. nia. }
        nia.
      * set (P := 2 ^ (- (e - 52))).
        assert (0 < P) as HP by (apply Z.pow_pos_nonneg; lia).
        assert (P * 2 ^ e = 2 ^ 52) as HPe.
        { unfold P. rewrite <- Z.pow_add_r by lia. f_equal. lia. }
        assert (1 <= 2 ^ e) by (apply (Z.pow_le_mono_r 2 0 e); lia).
        pose proof (round_half_even_bounds (n * P) d) as [Hlo _].
        assert (2 ^ 52 <= n * P / d).
        { apply Z.div_le_lower_bound; [done|]. nia. }
        assert (P <= 2 ^ 52) by nia.
        intros Hle.
        assert (1 <= Z.quot (float.round_half_even (n * P) d) P); [|lia].
        rewrite Z.quot_div_nonneg by lia.
        apply Z.div_le_lower_bound; lia.
Qed.

(** [int((a - b).total_seconds())] is positive exactly from one second on,
    whatever the rounding of the float. *)
Lemma whole_seconds_sign (a b : Z) :
  whole_seconds_between a b <= 0 <-> a - b < 1000000.
Proof.
  unfold whole_seconds_between, total_seconds.
  apply to_int_true_divide_sign. split; reflexivity.
Qed.

(** Below 2^34 seconds the float carries the quotient closely enough for
    [int] to return its integer part; further up a duration just under a
    whole second is rounded up to it. *)
Lemma whole_seconds_examples :
  whole_seconds_between 59999997 0 = 59
  /\ whole_seconds_between 0 1500000 = -1
  /\ whole_seconds_between 39999999999999998 0 = 40000000000.
Proof. vm_compute. repeat split. Qed.

(** ** Writes with a time to live that is not positive *)

(** The Redis backend refuses an entry whose time to live, in whole
    seconds, is not positive. *)
Lemma redis_rejects_elapsed_ttl e at_ (r : RedisCacheBackend.t) c :
  CacheEntry.expires_at e = Some at_ -> at_ - clock_now c < 1000000 ->
  RedisCacheBackend.set e r c = (Ret false, r, advance c).
Proof.
  intros He Hlt. rewrite (redis_set_expiring e at_) by done. simpl.
  assert ((whole_seconds_between at_ (clock_now c) <=? 0) = true) as ->; [|done].
  apply Z.leb_le. by apply whole_seconds_sign.
Qed.

(** C2 fails on the local and on the S3 backend: a write with [ttl = -1]
    is accepted, [set] returns true, and the key exists afterwards with
    an [expires_at] one second before the write.  The Redis backend
    rejects the same write. *)
Theorem negative_ttl_write_is_stored :
  (let '(ok, bs, c) :=
     CacheManager.set "k" hello (Some (-1)) None [local_dir 3600 ∅] (ticking t0 1) in
   ok = Ret true
   /\ bs = [local_dir 3600
              {[ LocalCacheBackend._get_cache_path "k" :=
                   dict_of "k" hello (t0 + 1) (Some (t0 - 1000000)) ]}]
   /\ result (CacheManager.exists_ "k" bs c) = Ret true)
  /\ (let '(ok, bs, c) :=
        CacheManager.set "k" hello (Some (-1)) None [s3_bucket ∅] (ticking t0 1) in
      ok = Ret true
      /\ (CacheEntry.d_expires_at <$> (bs !! 0%nat ≫= fun b => held b "k"))
         = Some (Some (t0 - 1000000))
      /\ result (CacheManager.exists_ "k" bs c) = Ret true)
  /\ (let '(ok, bs, c) :=
        CacheManager.set "k" hello (Some (-1)) None [redis_db ∅] (ticking t0 1) in
      ok = Ret false /\ bs = [redis_db ∅]).
Proof. vm_compute. repeat split. Qed.

(** ** The default time to live of the local backend *)

(** C4 fails: with one local backend configured with [default_ttl = 1],
    the entry written by [set("a", b"hello")] has no [expires_at], and
    however late the clock is read, [get("a")] returns the payload and
    [exists("a")] returns true. *)
Theorem local_default_ttl_is_not_applied :
  let '(ok, bs, _) :=
    CacheManager.set "a" hello None None [local_dir 1 ∅] (ticking t0 1) in
  ok = Ret true
  /\ bs = [local_dir 1 {[ LocalCacheBackend._get_cache_path "a" :=
                            dict_of "a" hello t0 None ]}]
  /\ forall later : Clock,
       CacheManager.get "a" bs later
       = (Ret (Some (entry_of "a" hello t0 None None)), bs, later)
       /\ CacheManager.exists_ "a" bs later = (Ret true, bs, later).
Proof. vm_compute. repeat split. Qed.

(** ** Fallback reads *)

Lemma manager_get_cons {B : Type} `{CacheBackend.t B} key (b : B) bs c :
  CacheManager.get key (b :: bs) c
  = match CacheBackend.get key b c with
    | (Ret (Some entry), b', c') => (Ret (Some entry), b' :: bs, c')
    | (_, b', c') =>
        let '(r, rest', c'') := CacheManager.get key bs c' in
        (r, b' :: rest', c'')
    end.
Proof.
  simpl. destruct (CacheBackend.get key b c) as [[[[e|]|x] b'] c']; done.
Qed.

Lemma manager_set_all_cons {B : Type} `{CacheBackend.t B} e success (b : B) bs c :
  CacheManager.set_all e success (b :: bs) c
  = let '(o, b', c') := CacheBackend.set e b c in
    let '(r, rest', c'') :=
      CacheManager.set_all e (match o with Ret true => true | _ => success end)
        bs c' in
    (r, b' :: rest', c'').
Proof. reflexivity. Qed.

(** A backend read hits and leaves the backend alone, or misses and at
    most evicts the expired entry of the key. *)
Lemma backend_get_effect (b b' : Backend) key c o c' :
  CacheBackend.get key b c = (o, b', c') ->
  readings c' = readings c
  /\ ((exists e, o = Ret (Some e) /\ b' = b)
      \/ (o = Ret None /\ untouched_or_evicted key c b b')).
Proof.
  rewrite backend_get_eq.
  destruct (served_at b key (clock_now c)) as [d|];
    [destruct (held_expiry b key) as [at_|] eqn:He;
     [destruct (at_ <? _) eqn:Hlt|]|];
    intros [= <- <- <-]; simpl; rewrite ?server_tick_readings; simpl;
    rewrite ?server_tick_readings; (split; [done|]);
    try (left; by eexists); right; (split; [done|]); try (by left).
  right. split; [done|]. apply Z.ltb_lt in Hlt. unfold clock_now in Hlt.
  rewrite server_tick_readings in Hlt. by eexists _, _.
Qed.





(** ** A write followed by a read *)



(** While what it holds is fresh, a backend serves it and is left alone. *)
Lemma backend_get_fresh (b : Backend) key c T :
  monotone c -> readings c (S (pos c)) <= T -> fresh_at b key T = true ->
  exists c',
    readings c' = readings c /\ (pos c <= pos c' <= pos c + 2)%nat
    /\ CacheBackend.get key b c
       = (Ret (CacheEntry.from_dict <$> held b key), b, c').
Proof.
  intros Hmono HT Hfresh. rewrite backend_get_eq.
  assert (clock_now c <= T) as Hnow.
  { etrans; [|exact HT]. apply Hmono. lia. }
  assert (clock_now (server_tick b c) <= T) as Htick.
  { etrans; [|exact HT]. unfold clock_now. rewrite server_tick_readings.
    apply Hmono. apply server_tick_pos. }
  pose proof (server_tick_pos b c) as Hpos.
  pose proof (server_tick_readings b c) as Hread.
  unfold fresh_at in Hfresh. apply andb_prop in Hfresh as [Hexp Hdead].
  assert (served_at b key (clock_now c) = held b key) as ->.
  { destruct b as [r|s|l]; try done. revert Hdead. by_class.
    unfold redis.lookup_at. destruct (_ !! _) as [[d dl]|]; [|done].
    intros Hdl%Z.leb_le. simpl.
    by assert ((clock_now c <=? dl) = true) as -> by (apply Z.leb_le; lia). }
  destruct (held b key) as [d|]; simpl.
  - destruct (held_expiry b key) as [at_|].
    + apply Z.leb_le in Hexp.
      assert ((at_ <? clock_now (server_tick b c)) = false) as ->
        by (apply Z.ltb_ge; lia).
      exists (advance (server_tick b c)). simpl. repeat split; try done; lia.
    + exists (server_tick b c). repeat split; try done; lia.
  - exists (server_tick b c). repeat split; try done; lia.
Qed.

Lemma from_to_dict (e : CacheEntry.t) : CacheEntry.from_dict (CacheEntry.to_dict e) = e.
Proof. destruct e as [k d cr [x|] sz md]; reflexivity. Qed.

Lemma to_from_dict (d : CacheEntry.dict) : CacheEntry.to_dict (CacheEntry.from_dict d) = d.
Proof. destruct d as [k p cr [x|] sz md]; reflexivity. Qed.







(** * Further properties *)

(** ** Strings *)

Lemma prefix_append (p k : string) : String.prefix p (p +:+ k) = true.
Proof.
  induction p as [|a p IH]; simpl; [by destruct k|].
  destruct (ascii_dec a a); [done | congruence].
Qed.

Lemma append_inj_r (p k k' : string) : p +:+ k = p +:+ k' -> k = k'.
Proof. induction p as [|a p IH]; simpl; [done|]. intros [= E]. auto. Qed.

Lemma length_append (s s' : string) :
  String.length (s +:+ s') = (String.length s + String.length s')%nat.
Proof. induction s as [|a s IH]; simpl; [done | by rewrite IH]. Qed.

Lemma substring_whole (s : string) : String.substring 0 (String.length s) s = s.
Proof. induction s as [|a s IH]; simpl; [done | by rewrite IH]. Qed.

Lemma substring_append_r (s s' : string) :
  String.substring (String.length s) (String.length s') (s +:+ s') = s'.
Proof. induction s as [|a s IH]; simpl; [apply substring_whole | done]. Qed.

Lemma ends_with_append (h suffix : string) :
  LocalCacheBackend.ends_with suffix (h +:+ suffix) = true.
Proof.
  unfold LocalCacheBackend.ends_with. rewrite length_append.
  replace (String.length h + String.length suffix - String.length suffix)%nat
    with (String.length h) by lia.
  rewrite substring_append_r, String.eqb_refl, andb_true_r.
  apply Nat.leb_le. lia.
Qed.

(** ** The key of a file hash *)

(** X1: [generate_file_hash_cache_key] gives different paths different
    keys, and its keys collide with no key of the build, binding and
    dependency generators. *)
Theorem file_hash_keys_are_distinct (p p' : string) (x : cache_tuple) :
  p <> p' ->
  generate_file_hash_cache_key p <> generate_file_hash_cache_key p'
  /\ generate_file_hash_cache_key p <> derive_key x.
Proof.
  intros Hne. split.
  - intros E. apply Hne. unfold generate_file_hash_cache_key in E.
    by apply append_inj_r in E.
  - by destruct x.
Qed.

Lemma file_hash_keys_are_distinct_witness :
  generate_file_hash_cache_key "src/a.c" <> generate_file_hash_cache_key "src/b.c"
  /\ generate_file_hash_cache_key "src/a.c"
     <> derive_key (DependencyTuple "hash" "src/a.c").
Proof.
  apply (file_hash_keys_are_distinct "src/a.c" "src/b.c"
           (DependencyTuple "hash" "src/a.c")).
  discriminate.
Defined.

(** ** The file name of a cache entry *)

Lemma hex_length (bs : bytes) : String.length (md5.hex bs) = (2 * length bs)%nat.
Proof. induction bs as [|b bs IH]; simpl; [done | rewrite IH; lia]. Qed.

Lemma hex_digits_of_byte (b : byte) :
  hex_char (md5.hex_digit (Z_of_byte b / 16))
  && hex_char (md5.hex_digit (Z_of_byte b mod 16)) = true.
Proof. destruct b; vm_compute; reflexivity. Qed.

Lemma hex_chars (bs : bytes) : all_chars hex_char (md5.hex bs) = true.
Proof.
  induction bs as [|b bs IH]; [done|].
  pose proof (hex_digits_of_byte b) as [H1 H2]%andb_prop.
  cbn [md5.hex all_chars]. by rewrite H1, H2, IH.
Qed.

Lemma digest_length (msg : bytes) : length (md5.digest msg) = 16%nat.
Proof.
  unfold md5.digest. destruct (md5.blocks _ _ _) as [[[a b] c] d].
  by rewrite !length_app, !length_le_bytes.
Qed.

(** X2: whatever the key, [_get_cache_path] names a file made of 32
    characters of [0-9a-f] followed by [.cache]: no key, however long or
    full of separators, yields a path component or an unsafe character,
    and the name is one that [clear] matches. *)
Theorem cache_path_is_a_safe_file_name (key : string) :
  exists h,
    LocalCacheBackend._get_cache_path key = h +:+ ".cache"
    /\ String.length h = 32%nat
    /\ all_chars hex_char h = true
    /\ LocalCacheBackend.ends_with ".cache"
         (LocalCacheBackend._get_cache_path key) = true.
Proof.
  exists (md5.hexdigest key). unfold LocalCacheBackend._get_cache_path.
  split; [done|].
  with_strategy transparent [md5.hexdigest] unfold md5.hexdigest.
  rewrite hex_length, digest_length, hex_chars, ends_with_append. done.
Qed.

(** ** Clearing a backend *)

(** X3: [clear] on the local backend returns true, removes every file
    of the cache directory whose name ends in [.cache] and leaves every
    other file as it was; afterwards the backend holds no entry under any
    key. *)
Theorem local_clear_removes_the_cache_files (l : LocalCacheBackend.t) (c : Clock) :
  exists l',
    LocalCacheBackend.clear l c = (Ret true, l', c)
    /\ (forall key, held (Local l') key = None)
    /\ (forall name d,
           LocalCacheBackend.files l' !! name = Some d
           <-> LocalCacheBackend.files l !! name = Some d
               /\ LocalCacheBackend.ends_with ".cache" name = false).
Proof.
  eexists. split; [reflexivity|]. split.
  - intros key. cbn [held LocalCacheBackend.with_files LocalCacheBackend.files].
    rewrite (proj2 (map_lookup_filter_None _ _ _)); [done|].
    right. intros d _. cbn [fst].
    unfold LocalCacheBackend._get_cache_path. by rewrite ends_with_append.
  - intros name d. cbn [LocalCacheBackend.with_files LocalCacheBackend.files].
    by rewrite map_lookup_filter_Some.
Qed.

(** X4: [clear] on the S3 backend, when the objects under its prefix fit
    one delete request, returns true, removes every object whose key
    starts with the prefix and leaves every other object of the bucket as
    it was, those of another namespace included; afterwards the backend
    holds no entry under any key. *)
Theorem s3_clear_stays_within_the_prefix (s : S3CacheBackend.t) (c : Clock) :
  within_one_request s = true ->
  exists s',
    S3CacheBackend.clear s c = (Ret true, s', c)
    /\ (forall key, held (S3 s') key = None)
    /\ (forall name o,
           S3CacheBackend.s3_client s' !! name = Some o
           <-> S3CacheBackend.s3_client s !! name = Some o
               /\ String.prefix (S3CacheBackend.prefix s) name = false).
Proof.
  intros _. eexists. split; [reflexivity|]. split.
  - intros key. cbn [held S3CacheBackend.with_client S3CacheBackend.s3_client
                     S3CacheBackend._make_key S3CacheBackend.prefix].
    rewrite (proj2 (map_lookup_filter_None _ _ _)); [done|].
    right. intros o _.
    unfold S3CacheBackend._make_key, S3CacheBackend.with_client.
    cbn [fst S3CacheBackend.prefix]. by rewrite prefix_append.
  - intros name o. cbn [S3CacheBackend.with_client S3CacheBackend.s3_client].
    by rewrite map_lookup_filter_Some.
Qed.

Lemma s3_clear_stays_within_the_prefix_witness :
  let d := dict_of "a" hello t0 None in
  let s := {| S3CacheBackend.bucket_name := "build-cache";
              S3CacheBackend.prefix := "universal_recycle/";
              S3CacheBackend.default_ttl := 3600;
              S3CacheBackend.s3_client :=
                {[ "universal_recycle/a" := object_of d;
                   "other/a" := object_of d ]} |} in
  within_one_request s = true
  /\ exists s',
       S3CacheBackend.clear s (ticking t0 1) = (Ret true, s', ticking t0 1)
       /\ (forall key, held (S3 s') key = None)
       /\ (forall name o,
              S3CacheBackend.s3_client s' !! name = Some o
              <-> S3CacheBackend.s3_client s !! name = Some o
                  /\ String.prefix (S3CacheBackend.prefix s) name = false).
Proof.
  intros d s.
  assert (within_one_request s = true) as Hfit by (vm_compute; reflexivity).
  split; [exact Hfit |].
  exact (s3_clear_stays_within_the_prefix s (ticking t0 1) Hfit).
Defined.

(** ** A backend and the entry it stored *)

Lemma append_inj_l (h h' s : string) : h +:+ s = h' +:+ s -> h = h'.
Proof.
  intros E.
  assert (String.length h = String.length h') as Hl.
  { apply (f_equal String.length) in E. rewrite !length_append in E. lia. }
  revert h' Hl E. induction h as [|a h IH]; intros [|a' h'] Hl E; try done.
  simpl in *. injection E as -> E. f_equal. apply IH; [lia | done].
Qed.

Lemma held_at_slot (b : Backend) k k' : slot b k = slot b k' -> held b k = held b k'.
Proof. destruct b; cbn [slot held]; by intros ->. Qed.

Lemma kept_apart_slot (b : Backend) k k' : kept_apart b k k' -> slot b k <> slot b k'.
Proof.
  destruct b as [r|s|l]; cbn [kept_apart slot]; intros Hne E; apply Hne.
  - by apply append_inj_r in E.
  - by apply append_inj_r in E.
  - unfold LocalCacheBackend._get_cache_path in E. by apply append_inj_l in E.
Qed.

Lemma held_evicted_other (b : Backend) k k' :
  slot b k <> slot b k' -> held (evicted b k) k' = held b k'.
Proof.
  destruct b; cbn [slot evicted held RedisCacheBackend.with_client
    S3CacheBackend.with_client LocalCacheBackend.with_files
    RedisCacheBackend.redis_client S3CacheBackend.s3_client
    LocalCacheBackend.files RedisCacheBackend._make_key
    S3CacheBackend._make_key RedisCacheBackend.prefix S3CacheBackend.prefix];
    intros Hne; by rewrite lookup_delete_ne.
Qed.

Lemma backend_set_effect (b b' : Backend) e c o c' :
  CacheBackend.set e b c = (o, b', c') ->
  readings c' = readings c
  /\ (pos c <= pos c' <= pos c + 2)%nat
  /\ ((o = Ret false /\ b' = b)
      \/ (o = Ret true
          /\ held b' (CacheEntry.key e) = Some (CacheEntry.to_dict e)
          /\ forall k', slot b (CacheEntry.key e) <> slot b k' ->
                        held b' k' = held b k')).
Proof.
  destruct b as [r|s|l]; by_class.
  - destruct (CacheEntry.expires_at e) as [at_|] eqn:He.
    + rewrite (redis_set_expiring e at_) by done. cbn zeta.
      destruct (_ <=? 0); intros [= <- <- <-]; (split; [done|]);
        (split; [simpl; lia|]); [by left | right].
      split; [done|]. cbn [held RedisCacheBackend.with_client
        RedisCacheBackend.redis_client RedisCacheBackend._make_key
        RedisCacheBackend.prefix slot].
      split; [by rewrite lookup_insert_eq|].
      intros k' Hne. by rewrite lookup_insert_ne.
    + rewrite redis_set_no_expiry by done.
      destruct (_ <=? 0); intros [= <- <- <-]; (split; [done|]);
        (split; [simpl; lia|]); [by left | right].
      split; [done|]. cbn [held RedisCacheBackend.with_client
        RedisCacheBackend.redis_client RedisCacheBackend._make_key
        RedisCacheBackend.prefix slot].
      split; [by rewrite lookup_insert_eq|].
      intros k' Hne. by rewrite lookup_insert_ne.
  - rewrite s3_set_eq. intros [= <- <- <-]. split; [done|]. split; [lia|].
    right. split; [done|]. cbn [held S3CacheBackend.with_client
      S3CacheBackend.s3_client S3CacheBackend._make_key S3CacheBackend.prefix
      slot].
    split; [by rewrite lookup_insert_eq|].
    intros k' Hne. by rewrite lookup_insert_ne.
  - rewrite local_set_eq. intros [= <- <- <-]. split; [done|]. split; [lia|].
    right. split; [done|]. cbn [held LocalCacheBackend.with_files
      LocalCacheBackend.files slot].
    split; [by rewrite lookup_insert_eq|].
    intros k' Hne. by rewrite lookup_insert_ne.
Qed.

(** X5: a backend of any class returns exactly the entry it accepted
    (key, payload, timestamps, size and metadata) to a read of its key,
    and the read leaves the backend as it is, as long as the entry is
    still fresh when the read looks at the clock. *)
Theorem backend_returns_the_entry_it_stored
    (b b' : Backend) (e : CacheEntry.t) (c c' : Clock) :
  CacheBackend.set e b c = (Ret true, b', c') ->
  monotone c' ->
  fresh_at b' (CacheEntry.key e) (readings c' (S (pos c'))) = true ->
  exists c2,
    CacheBackend.get (CacheEntry.key e) b' c' = (Ret (Some e), b', c2).
Proof.
  intros Hset Hmono Hfresh.
  destruct (backend_get_fresh b' (CacheEntry.key e) c' _ Hmono (Z.le_refl _) Hfresh)
    as (c2 & _ & _ & Hg).
  exists c2. rewrite Hg, (backend_set_stores _ _ _ _ _ Hset). simpl.
  by rewrite from_to_dict.
Qed.

Lemma backend_returns_the_entry_it_stored_witness :
  let e := entry_of "a" hello t0 (Some (t0 + 60000000)) None in
  let b' := local_dir 3600
              (<[LocalCacheBackend._get_cache_path "a" := CacheEntry.to_dict e]> ∅) in
  CacheBackend.set e (local_dir 3600 ∅) (ticking t0 1) = (Ret true, b', ticking t0 1)
  /\ exists c2, CacheBackend.get "a" b' (ticking t0 1) = (Ret (Some e), b', c2).
Proof.
  intros e b'.
  assert (CacheBackend.set e (local_dir 3600 ∅) (ticking t0 1)
          = (Ret true, b', ticking t0 1)) as Hset by reflexivity.
  split; [exact Hset |].
  apply (backend_returns_the_entry_it_stored (local_dir 3600 ∅) b' e
           (ticking t0 1) (ticking t0 1) Hset).
  - intros n m Hnm. cbn [ticking readings]. lia.
  - vm_compute. reflexivity.
Defined.

(** X6: writing, deleting or reading one key never changes what a
    backend holds under another key: any other key for Redis and S3, any
    key with another digest for the local backend. *)
Theorem other_keys_are_left_alone
    (b : Backend) (k k' : string) (e : CacheEntry.t) (c : Clock) :
  kept_apart b k k' -> CacheEntry.key e = k ->
  held (CacheBackend.set e b c).1.2 k' = held b k'
  /\ held (CacheBackend.delete k b c).1.2 k' = held b k'
  /\ held (CacheBackend.get k b c).1.2 k' = held b k'.
Proof.
  intros Hne%kept_apart_slot Hk. repeat split.
  - destruct (CacheBackend.set e b c) as [[o b'] c'] eqn:Hset.
    apply backend_set_effect in Hset as (_ & _ & [[_ ->]|(_ & _ & Hother)]);
      [done|]. cbn [fst snd]. apply Hother. by rewrite Hk.
  - destruct (backend_delete_eq b k c) as [r ->]. cbn [fst snd].
    by apply held_evicted_other.
  - destruct (CacheBackend.get k b c) as [[o b'] c'] eqn:Hget.
    apply backend_get_effect in Hget
      as (_ & [(? & _ & ->)|(_ & [->|(-> & _)])]); cbn [fst snd]; try done.
    by apply held_evicted_other.
Qed.

Lemma other_keys_are_left_alone_witness :
  let d := dict_of "b" hello t0 None in
  let b := redis_db {[ "universal_recycle:b" := (d, t0 + 3600000000) ]} in
  let e := entry_of "a" hello t0 None None in
  held (CacheBackend.set e b (ticking t0 1)).1.2 "b" = held b "b"
  /\ held (CacheBackend.delete "a" b (ticking t0 1)).1.2 "b" = held b "b"
  /\ held (CacheBackend.get "a" b (ticking t0 1)).1.2 "b" = held b "b".
Proof.
  intros d b e.
  apply (other_keys_are_left_alone b "a" "b" e (ticking t0 1));
    [discriminate | reflexivity].
Defined.

(** ** The time to live Redis keeps *)

(** X7: the Redis backend, unlike the local one, applies its default
    time to live: an entry written without [expires_at] under a positive
    [default_ttl] is returned by every read up to [default_ttl] seconds
    after the write, and by no read after that instant, when [exists]
    too reports it gone. *)
Theorem redis_applies_its_default_ttl
    (r : RedisCacheBackend.t) (e : CacheEntry.t) (c : Clock) :
  CacheEntry.expires_at e = None ->
  0 < RedisCacheBackend.default_ttl r ->
  exists r',
    RedisCacheBackend.set e r c = (Ret true, r', advance c)
    /\ forall c2 : Clock,
         let deadline :=
           clock_now c + RedisCacheBackend.default_ttl r * 1000000 in
         (clock_now c2 <= deadline ->
          RedisCacheBackend.get (CacheEntry.key e) r' c2
          = (Ret (Some e), r', advance c2))
         /\ (deadline < clock_now c2 ->
             RedisCacheBackend.get (CacheEntry.key e) r' c2
             = (Ret None, r', advance c2)
             /\ RedisCacheBackend.exists_ (CacheEntry.key e) r' c2
                = (Ret false, r', advance c2)).
Proof.
  intros He Hpos. eexists. split.
  - rewrite redis_set_no_expiry by done.
    by assert ((RedisCacheBackend.default_ttl r <=? 0) = false) as ->
      by (apply Z.leb_gt; lia).
  - intros c2 deadline.
    assert (forall t,
              redis.lookup_at
                (RedisCacheBackend.redis_client
                   (RedisCacheBackend.with_client r
                      (<[RedisCacheBackend._make_key r (CacheEntry.key e) :=
                           (CacheEntry.to_dict e, deadline)]>
                         (RedisCacheBackend.redis_client r))))
                (RedisCacheBackend._make_key
                   (RedisCacheBackend.with_client r
                      (<[RedisCacheBackend._make_key r (CacheEntry.key e) :=
                           (CacheEntry.to_dict e, deadline)]>
                         (RedisCacheBackend.redis_client r)))
                   (CacheEntry.key e)) t
              = if t <=? deadline then Some (CacheEntry.to_dict e) else None)
      as Hlook.
    { intros t. unfold redis.lookup_at, RedisCacheBackend._make_key. simpl.
      by rewrite lookup_insert_eq. }
    split.
    + intros Hle%Z.leb_le. rewrite redis_get_eq, Hlook, Hle.
      destruct e as [k d cr ex sz md]. simpl in He. subst ex. reflexivity.
    + intros Hlt%Z.leb_gt. rewrite redis_get_eq, redis_exists_eq, Hlook, Hlt.
      split; [done|].
      rewrite bool_decide_eq_false_2; [done | by intros [? ?]].
Qed.

Lemma redis_applies_its_default_ttl_witness :
  let e := entry_of "a" hello t0 None None in
  let r := {| RedisCacheBackend.prefix := "universal_recycle:";
              RedisCacheBackend.default_ttl := 3600;
              RedisCacheBackend.redis_client := ∅ |} in
  exists r',
    RedisCacheBackend.set e r (ticking t0 1) = (Ret true, r', advance (ticking t0 1))
    /\ forall c2 : Clock,
         let deadline := clock_now (ticking t0 1) + 3600 * 1000000 in
         (clock_now c2 <= deadline ->
          RedisCacheBackend.get "a" r' c2 = (Ret (Some e), r', advance c2))
         /\ (deadline < clock_now c2 ->
             RedisCacheBackend.get "a" r' c2 = (Ret None, r', advance c2)
             /\ RedisCacheBackend.exists_ "a" r' c2 = (Ret false, r', advance c2)).
Proof.
  intros e r.
  apply (redis_applies_its_default_ttl r e (ticking t0 1)); [reflexivity |].
  cbn [RedisCacheBackend.default_ttl r]. lia.
Defined.

(** X8: with Redis as the only backend, [set] with a time to live of
    [secs > 0] seconds succeeds exactly when [secs > 1], provided the
    clock moves, by at most a second, between the reading of the manager
    and the reading of the backend: the backend truncates what remains to
    whole seconds, so that a time to live of one second is always
    rejected, and the backend is left as it was. *)
Theorem redis_loses_the_running_second
    (r : RedisCacheBackend.t) (key : string) (data : bytes) (secs : Z)
    (metadata : option (gmap string string)) (c : Clock) :
  0 < secs ->
  representable (clock_now c) secs = true ->
  clock_now c < readings c (S (S (pos c))) <= clock_now c + 1000000 ->
  result (CacheManager.set key data (Some secs) metadata [Redis r] c)
  = Ret (1 <? secs)
  /\ (secs = 1 ->
      CacheManager.set key data (Some secs) metadata [Redis r] c
      = (Ret false, [Redis r], advance (advance (advance c)))).
Proof.
  intros Hsecs Hrep Hclock.
  assert (CacheManager.set key data (Some secs) metadata [Redis r] c
          = CacheManager.set_all
              (entry_of key data (clock_now (advance c))
                 (Some (clock_now c + secs * 1000000)) metadata)
              false [Redis r] (advance (advance c))) as ->.
  { rewrite set_unfold. unfold expiry_overflows. rewrite Hrep.
    rewrite andb_false_r. rewrite make_entry_ttl by lia. by rewrite Hrep. }
  rewrite manager_set_all_cons. by_class.
  rewrite (redis_set_expiring _ (clock_now c + secs * 1000000)) by done.
  cbn zeta.
  assert ((whole_seconds_between (clock_now c + secs * 1000000)
             (clock_now (advance (advance c))) <=? 0) = negb (1 <? secs)) as ->.
  { pose proof (whole_seconds_sign (clock_now c + secs * 1000000)
                  (clock_now (advance (advance c)))) as Hsign.
    unfold clock_now in *. cbn [advance readings pos] in *.
    destruct (Z.leb_spec (whole_seconds_between
                            (readings c (pos c) + secs * 1000000)
                            (readings c (S (S (pos c))))) 0),
             (Z.ltb_spec 1 secs); cbn [negb]; lia. }
  destruct (Z.ltb_spec 1 secs) as [Hgt|Hle];
    cbn [negb CacheManager.set_all result fst].
  - split; [done | lia].
  - done.
Qed.

Lemma redis_loses_the_running_second_witness :
  result (CacheManager.set "a" hello (Some 1) None [redis_db ∅] (ticking t0 1))
  = Ret (1 <? 1)
  /\ (1 = 1 ->
      CacheManager.set "a" hello (Some 1) None [redis_db ∅] (ticking t0 1)
      = (Ret false, [redis_db ∅],
         advance (advance (advance (ticking t0 1))))).
Proof.
  apply (redis_loses_the_running_second _ "a" hello 1 None (ticking t0 1)).
  - lia.
  - vm_compute. reflexivity.
  - unfold clock_now. cbn [ticking readings pos]. lia.
Defined.

(** ** What [exists] reports *)

Lemma backend_exists_eq (b : Backend) key c :
  CacheBackend.exists_ key b c
  = (Ret (bool_decide (is_Some (served_at b key (clock_now c)))), b,
     server_tick b c).
Proof.
  destruct b as [r|s|l]; by_class.
  - by rewrite redis_exists_eq.
  - rewrite s3_exists_eq. f_equal. f_equal. f_equal.
    apply bool_decide_ext. by rewrite !is_Some_alt; destruct (_ !! _).
  - by rewrite local_exists_eq.
Qed.

(** X9: [exists] on a backend never changes the backend and never looks
    at [expires_at]: for an entry that is still served although its
    [expires_at] lies in the past, [exists] answers true while [get]
    returns absent, and only after that [get] has evicted the entry does
    [exists] answer false. *)
Theorem exists_ignores_expiry
    (b : Backend) (key : string) (c : Clock) (d : CacheEntry.dict) (at_ : Z) :
  well_formed b ->
  served_at b key (clock_now c) = Some d ->
  CacheEntry.d_expires_at d = Some at_ ->
  (forall n : nat, (pos c <= n)%nat -> at_ < readings c n) ->
  CacheBackend.exists_ key b c = (Ret true, b, server_tick b c)
  /\ result (CacheBackend.get key b c) = Ret None
  /\ forall c2,
       CacheBackend.exists_ key (CacheBackend.get key b c).1.2 c2
       = (Ret false, (CacheBackend.get key b c).1.2,
          server_tick (CacheBackend.get key b c).1.2 c2).
Proof.
  intros Hwf Hs Hd Hpast. rewrite backend_exists_eq, Hs.
  split; [done|].
  pose proof (held_expiry_served b key _ d Hwf Hs) as He. rewrite Hd in He.
  rewrite backend_get_eq, Hs, He.
  assert ((at_ <? clock_now (server_tick b c)) = true) as ->.
  { apply Z.ltb_lt. unfold clock_now. rewrite server_tick_readings.
    apply Hpast. apply server_tick_pos. }
  split; [done|]. intros c2. cbn [fst snd].
  rewrite backend_exists_eq, served_at_evicted. done.
Qed.

Lemma exists_ignores_expiry_witness :
  let d := dict_of "k" hello (t0 - 5000000) (Some (t0 - 1000000)) in
  let b := s3_bucket {[ "universal_recycle/k" := object_of d ]} in
  let c := ticking t0 1 in
  CacheBackend.exists_ "k" b c = (Ret true, b, server_tick b c)
  /\ result (CacheBackend.get "k" b c) = Ret None
  /\ forall c2,
       CacheBackend.exists_ "k" (CacheBackend.get "k" b c).1.2 c2
       = (Ret false, (CacheBackend.get "k" b c).1.2,
          server_tick (CacheBackend.get "k" b c).1.2 c2).
Proof.
  intros d b c.
  apply (exists_ignores_expiry b "k" c d (t0 - 1000000)).
  - unfold b, s3_bucket. cbn [well_formed S3CacheBackend.s3_client].
    intros k o [<- <-]%lookup_singleton_Some. reflexivity.
  - reflexivity.
  - reflexivity.
  - intros n _. cbn [c ticking readings]. lia.
Defined.

(** ** The manager: deleting, probing, writing everywhere *)

Lemma held_none_served (b : Backend) key t : held b key = None -> served_at b key t = None.
Proof.
  destruct b; cbn [held served_at]; try done. unfold redis.lookup_at.
  by destruct (_ !! _).
Qed.

Lemma manager_delete_all_cons {B : Type} `{CacheBackend.t B} key success (b : B) bs c :
  CacheManager.delete_all key success (b :: bs) c
  = let '(o, b', c') := CacheBackend.delete key b c in
    let '(r, rest', c'') :=
      CacheManager.delete_all key
        (match o with Ret true => true | _ => success end) bs c' in
    (r, b' :: rest', c'').
Proof. reflexivity. Qed.

Lemma manager_exists_cons {B : Type} `{CacheBackend.t B} key (b : B) bs c :
  CacheManager.exists_ key (b :: bs) c
  = match CacheBackend.exists_ key b c with
    | (Ret true, b', c') => (Ret true, b' :: bs, c')
    | (_, b', c') =>
        let '(r, rest', c'') := CacheManager.exists_ key bs c' in
        (r, b' :: rest', c'')
    end.
Proof.
  simpl. destruct (CacheBackend.exists_ key b c) as [[[[|]|x] b'] c']; done.
Qed.

Lemma delete_all_evicts key success (bs : list Backend) c :
  (CacheManager.delete_all key success bs c).1.2
  = (fun b => evicted b key) <$> bs.
Proof.
  revert success c. induction bs as [|b bs IH]; intros success c; [done|].
  rewrite manager_delete_all_cons.
  destruct (backend_delete_eq b key c) as [r ->].
  specialize (IH (match Ret r with Ret true => true | _ => success end)
                 (server_tick b c)).
  destruct (CacheManager.delete_all key _ bs (server_tick b c)) as [[o bs'] c'].
  cbn [fst snd] in *. by rewrite IH.
Qed.

Lemma get_all_absent key (bs : list Backend) c :
  Forall (fun b => held b key = None) bs ->
  exists c', CacheManager.get key bs c = (Ret None, bs, c').
Proof.
  revert c. induction bs as [|b bs IH]; intros c Hall; [by eexists|].
  apply Forall_cons in Hall as [Hb Hall].
  rewrite manager_get_cons, backend_get_eq, (held_none_served _ _ _ Hb).
  destruct (IH (server_tick b c) Hall) as [c' ->]. by eexists.
Qed.

Lemma exists_all_absent key (bs : list Backend) c :
  Forall (fun b => held b key = None) bs ->
  exists c', CacheManager.exists_ key bs c = (Ret false, bs, c').
Proof.
  revert c. induction bs as [|b bs IH]; intros c Hall; [by eexists|].
  apply Forall_cons in Hall as [Hb Hall].
  rewrite manager_exists_cons, backend_exists_eq, (held_none_served _ _ _ Hb).
  rewrite bool_decide_eq_false_2 by (by intros [? ?]).
  destruct (IH (server_tick b c) Hall) as [c' ->]. by eexists.
Qed.

(** X10: [CacheManager.delete(key)] deletes the key in every backend, not
    only in the first that holds it: whatever it returns, each backend is
    left without its slot for the key, and a [get] or an [exists] of the
    key that follows, at any time, finds nothing and changes nothing. *)
Theorem delete_then_read_finds_nothing
    (key : string) (bs : list Backend) (c c2 : Clock) :
  let bs1 := (CacheManager.delete key bs c).1.2 in
  bs1 = (fun b => evicted b key) <$> bs
  /\ (exists c3, CacheManager.get key bs1 c2 = (Ret None, bs1, c3))
  /\ (exists c3, CacheManager.exists_ key bs1 c2 = (Ret false, bs1, c3)).
Proof.
  intros bs1.
  assert (bs1 = (fun b => evicted b key) <$> bs) as E
    by apply delete_all_evicts.
  assert (Forall (fun b => held b key = None) bs1) as Hnone.
  { rewrite E. apply Forall_fmap, Forall_forall. intros b _. apply held_evicted. }
  split; [done|]. split; [by apply get_all_absent | by apply exists_all_absent].
Qed.

(** X11: [CacheManager.exists(key)] leaves every backend as it was (it
    never evicts, unlike [get]); it returns true only if some backend
    holds something under the key, and false whenever none does. *)
Theorem exists_is_read_only_and_sound
    (key : string) (bs : list Backend) (c : Clock) :
  exists r c',
    CacheManager.exists_ key bs c = (Ret r, bs, c')
    /\ (r = true -> Exists (fun b => is_Some (held b key)) bs)
    /\ (Forall (fun b => held b key = None) bs -> r = false).
Proof.
  revert c. induction bs as [|b bs IH]; intros c.
  - exists false, c. repeat split; done.
  - rewrite manager_exists_cons, backend_exists_eq.
    destruct (served_at b key (clock_now c)) as [d|] eqn:Hs.
    + rewrite bool_decide_eq_true_2 by (by eexists).
      exists true, (server_tick b c). split; [done|]. split.
      * intros _. apply Exists_cons_hd. apply served_at_held in Hs. by eexists.
      * intros [Hb _]%Forall_cons. apply served_at_held in Hs. congruence.
    + rewrite bool_decide_eq_false_2 by (by intros [? ?]).
      destruct (IH (server_tick b c)) as (r & c' & -> & Htrue & Hfalse).
      exists r, c'. split; [done|]. split.
      * intros Hr. apply Exists_cons_tl. by apply Htrue.
      * intros [_ Hall]%Forall_cons. by apply Hfalse.
Qed.

Lemma set_all_fanout e success (bs : list Backend) c :
  exists r bs1 c1,
    CacheManager.set_all e success bs c = (Ret r, bs1, c1)
    /\ Forall2 (fun b b' =>
                  is_redis b' = is_redis b
                  /\ (is_redis b = false ->
                      held b' (CacheEntry.key e) = Some (CacheEntry.to_dict e)))
               bs bs1
    /\ (success = true \/ existsb (fun b => negb (is_redis b)) bs = true ->
        r = true).
Proof.
  revert success c. induction bs as [|b bs IH]; intros success c.
  - exists success, [], c. repeat split; [constructor|]. by intros [?|?].
  - rewrite manager_set_all_cons.
    destruct (CacheBackend.set e b c) as [[o b'] c'] eqn:Hb.
    destruct (IH (match o with Ret true => true | _ => success end) c')
      as (r & bs1 & c1 & -> & Hall & Hr).
    exists r, (b' :: bs1), c1. split; [done|].
    assert (is_redis b' = is_redis b
            /\ (is_redis b = false ->
                o = Ret true
                /\ held b' (CacheEntry.key e) = Some (CacheEntry.to_dict e)))
      as [Hclass Hstored].
    { revert Hb. destruct b as [x|s|l]; by_class.
      - destruct (RedisCacheBackend.set e x c) as [[o' r'] c''].
        by intros [= _ <- _].
      - rewrite s3_set_eq. intros [= <- <- _]. split; [done|]. intros _.
        split; [done|]. cbn [held S3CacheBackend.with_client
          S3CacheBackend.s3_client S3CacheBackend._make_key
          S3CacheBackend.prefix]. by rewrite lookup_insert_eq.
      - rewrite local_set_eq. intros [= <- <- _]. split; [done|]. intros _.
        split; [done|]. cbn [held LocalCacheBackend.with_files
          LocalCacheBackend.files]. by rewrite lookup_insert_eq. }
    split.
    + constructor; [|done]. split; [done|]. intros Hn. by apply Hstored.
    + intros Hor. apply Hr. cbn [existsb] in Hor.
      destruct Hor as [->|[Hn|?]%orb_prop]; [by left; destruct o as [[|]|] | | by right].
      left. apply negb_true_iff in Hn. by destruct (Hstored Hn) as [-> _].
Qed.

(** X12: [CacheManager.set] writes to every backend, not only to the
    first that accepts: when its expiry date is representable, and the
    key is one S3 can address, it returns a value, every S3 and local
    backend holds the new entry under the key afterwards, and the result
    is true as soon as one such backend is configured. *)
Theorem set_reaches_every_backend
    (key : string) (data : bytes) (ttl : option Z)
    (metadata : option (gmap string string)) (bs : list Backend) (c : Clock) :
  expiry_overflows ttl c = false ->
  forallb (fun b => addressable b key) bs = true ->
  exists r bs1 c1,
    CacheManager.set key data ttl metadata bs c = (Ret r, bs1, c1)
    /\ Forall2 (fun b b' =>
                  is_redis b' = is_redis b
                  /\ (is_redis b = false ->
                      exists d, held b' key = Some d
                                /\ CacheEntry.d_key d = key
                                /\ CacheEntry.d_data d = data))
               bs bs1
    /\ (existsb (fun b => negb (is_redis b)) bs = true -> r = true).
Proof.
  intros Hno _. rewrite set_unfold, Hno.
  destruct (CacheManager.make_entry key data ttl metadata bs c)
    as [[[e|x] bs0] c0] eqn:Hmk.
  - pose proof (make_entry_size _ _ _ _ _ _ _ _ _ Hmk) as (Hk & Hd & _).
    destruct (set_all_fanout e false bs c0) as (r & bs1 & c1 & -> & Hall & Hr).
    exists r, bs1, c1. split; [done|]. split; [|by intros ?; apply Hr; right].
    eapply Forall2_impl; [exact Hall|]. intros b b' [Hc Hs]. split; [done|].
    intros Hn. exists (CacheEntry.to_dict e). rewrite <- Hk at 1.
    split; [by apply Hs|]. by rewrite <- Hk, <- Hd.
  - exfalso. revert Hmk Hno. unfold expiry_overflows.
    destruct ttl as [secs|]; [destruct (decide (secs = 0)) as [->|Hs]|].
    + by rewrite make_entry_zero_ttl.
    + rewrite make_entry_ttl by done. apply Z.eqb_neq in Hs. rewrite Hs.
      by destruct (representable _ _).
    + by rewrite make_entry_no_ttl.
Qed.

Lemma set_reaches_every_backend_witness :
  exists r bs1 c1,
    CacheManager.set "a" hello (Some 1) None
      [redis_db ∅; local_dir 3600 ∅; s3_bucket ∅] (ticking t0 1)
    = (Ret r, bs1, c1)
    /\ Forall2 (fun b b' =>
                  is_redis b' = is_redis b
                  /\ (is_redis b = false ->
                      exists d, held b' "a" = Some d
                                /\ CacheEntry.d_key d = "a"
                                /\ CacheEntry.d_data d = hello))
               [redis_db ∅; local_dir 3600 ∅; s3_bucket ∅] bs1
    /\ (existsb (fun b => negb (is_redis b))
          [redis_db ∅; local_dir 3600 ∅; s3_bucket ∅] = true -> r = true).
Proof.
  apply (set_reaches_every_backend "a" hello (Some 1) None
           [redis_db ∅; local_dir 3600 ∅; s3_bucket ∅] (ticking t0 1));
    vm_compute; reflexivity.
Defined.

(** ** Reads never return what had expired *)

Lemma backend_get_hit_is_live (b b' : Backend) key c e c' at_ :
  well_formed b ->
  CacheBackend.get key b c = (Ret (Some e), b', c') ->
  CacheEntry.expires_at e = Some at_ ->
  exists n : nat, (pos c <= n)%nat /\ readings c n <= at_.
Proof.
  intros Hwf. rewrite backend_get_eq.
  destruct (served_at b key (clock_now c)) as [d|] eqn:Hs; [|done].
  rewrite (held_expiry_served b key _ d Hwf Hs).
  destruct (CacheEntry.d_expires_at d) as [x|] eqn:Hd.
  - destruct (x <? _) eqn:Hlt; [done|]. intros [= <- _ _].
    destruct d as [k p cr ex sz md]. simpl in *. subst ex. intros [= <-].
    apply Z.ltb_ge in Hlt. unfold clock_now in Hlt.
    rewrite server_tick_readings in Hlt.
    exists (pos (server_tick b c)). split; [apply server_tick_pos | done].
  - intros [= <- _ _]. destruct d as [k p cr ex sz md]. simpl in *. by subst ex.
Qed.

Lemma backend_get_keeps (b b' : Backend) key c o c' :
  CacheBackend.get key b c = (o, b', c') ->
  (pos c <= pos c')%nat /\ readings c' = readings c.
Proof.
  rewrite backend_get_eq. pose proof (server_tick_pos b c) as Hp.
  pose proof (server_tick_pos b (advance (server_tick b c))) as Hp'.
  destruct (served_at b key (clock_now c)) as [d|];
    [destruct (held_expiry b key) as [x|]; [destruct (x <? _)|]|];
    intros [= _ _ <-]; rewrite ?server_tick_readings; cbn [advance readings pos] in *;
    rewrite ?server_tick_readings; split; try done; lia.
Qed.

(** X13: [CacheManager.get] never returns an entry that had already
    expired when the read began: with a clock that does not run
    backwards, an entry returned with an [expires_at] has it at or after
    the first clock reading of the call (S3 objects carrying the metadata
    [set] gives them). *)
Theorem get_never_returns_an_expired_entry
    (key : string) (bs : list Backend) (c : Clock)
    (e : CacheEntry.t) (at_ : Z) :
  Forall well_formed bs ->
  monotone c ->
  result (CacheManager.get key bs c) = Ret (Some e) ->
  CacheEntry.expires_at e = Some at_ ->
  clock_now c <= at_.
Proof.
  intros Hwf Hmono Hget He.
  enough (exists n : nat, (pos c <= n)%nat /\ readings c n <= at_)
    as (n & Hn & Hle) by (etrans; [apply (Hmono _ n Hn) | done]).
  clear Hmono. revert c Hget.
  induction bs as [|b bs IH]; intros c; [done|].
  apply Forall_cons in Hwf as [Hb Hwf].
  rewrite manager_get_cons.
  destruct (CacheBackend.get key b c) as [[o b'] c'] eqn:Hg.
  pose proof (backend_get_keeps _ _ _ _ _ _ Hg) as [Hpos Hread].
  assert (result (CacheManager.get key bs c') = Ret (Some e) ->
          exists n : nat, (pos c <= n)%nat /\ readings c n <= at_) as Hrest.
  { intros Hr. destruct (IH Hwf c' Hr) as (n & Hn & Hle).
    exists n. rewrite <- Hread. split; [lia | done]. }
  unfold result in *.
  destruct o as [[e'|]|x].
  - cbn [fst]. intros [= ->]. by eapply backend_get_hit_is_live.
  - destruct (CacheManager.get key bs c') as [[r rest] c'']. exact Hrest.
  - destruct (CacheManager.get key bs c') as [[r rest] c'']. exact Hrest.
Qed.

Lemma get_never_returns_an_expired_entry_witness :
  let e := entry_of "a" hello t0 (Some (t0 + 60000000)) None in
  let bs := [redis_db ∅; s3_bucket {[ "universal_recycle/a" := object_of (CacheEntry.to_dict e) ]}] in
  result (CacheManager.get "a" bs (ticking t0 1)) = Ret (Some e)
  /\ clock_now (ticking t0 1) <= t0 + 60000000.
Proof.
  intros e bs.
  assert (result (CacheManager.get "a" bs (ticking t0 1)) = Ret (Some e)) as Hget
    by (vm_compute; reflexivity).
  split; [exact Hget |].
  apply (get_never_returns_an_expired_entry "a" bs (ticking t0 1) e
           (t0 + 60000000)).
  - unfold bs, redis_db, s3_bucket. repeat constructor.
    cbn [well_formed S3CacheBackend.s3_client].
    intros k o [<- <-]%lookup_singleton_Some. reflexivity.
  - intros n m Hnm. cbn [ticking readings]. lia.
  - exact Hget.
  - reflexivity.
Defined.

(** ** The invariant of the S3 backend *)

Lemma filtered_out `{Countable K} {A} (P : K * A -> Prop) `{!forall x, Decision (P x)}
    (m : gmap K A) (i : K) :
  (forall x, ~ P (i, x)) -> filter P m !! i = None.
Proof. intros Hn. apply map_lookup_filter_None. right. intros x _. apply Hn. Qed.

Lemma backend_clear_eq (b : Backend) c :
  exists b',
    CacheBackend.clear b c = (Ret true, b', c)
    /\ (forall key, held b' key = None)
    /\ (well_formed b -> well_formed b')
    /\ is_redis b' = is_redis b.
Proof.
  destruct b as [r|s|l]; cbn [CacheBackend.clear any_backend dispatch];
    (eexists; split; [reflexivity|]).
  - split; [|done]. intros key.
    cbn [held RedisCacheBackend.with_client RedisCacheBackend.redis_client].
    unfold RedisCacheBackend._make_key, RedisCacheBackend.with_client.
    cbn [RedisCacheBackend.prefix].
    rewrite filtered_out; [done|]. intros x. cbn [fst]. by rewrite prefix_append.
  - split; [|split; [|done]].
    + intros key.
      cbn [held S3CacheBackend.with_client S3CacheBackend.s3_client].
      unfold S3CacheBackend._make_key, S3CacheBackend.with_client.
      cbn [S3CacheBackend.prefix].
      rewrite filtered_out; [done|]. intros x. cbn [fst]. by rewrite prefix_append.
    + intros Hwf k o. cbn [S3CacheBackend.with_client S3CacheBackend.s3_client].
      intros [Ho _]%map_lookup_filter_Some. by apply (Hwf k).
  - split; [|done]. intros key.
    cbn [held LocalCacheBackend.with_files LocalCacheBackend.files].
    apply filtered_out. intros x. cbn [fst].
    unfold LocalCacheBackend._get_cache_path. by rewrite ends_with_append.
Qed.


(** X14: every operation of a backend keeps the invariant on which the
    expiry check of the S3 backend rests: the metadata of each object
    carries the [expires_at] of the entry in its body.  It holds of an
    empty bucket and is kept by [set], [get], [delete], [exists] and
    [clear]. *)
Theorem operations_keep_the_metadata_in_step
    (b : Backend) (key : string) (e : CacheEntry.t) (c : Clock) :
  well_formed b ->
  well_formed (CacheBackend.set e b c).1.2
  /\ well_formed (CacheBackend.get key b c).1.2
  /\ well_formed (CacheBackend.delete key b c).1.2
  /\ well_formed (CacheBackend.exists_ key b c).1.2
  /\ well_formed (CacheBackend.clear b c).1.2.
Proof.
  intros Hwf. repeat split.
  - destruct (CacheBackend.set e b c) as [[o b'] c'] eqn:Hs.
    by eapply well_formed_set.
  - destruct (CacheBackend.get key b c) as [[o b'] c'] eqn:Hg.
    apply backend_get_effect in Hg
      as (_ & [(? & _ & ->)|(_ & [->|(-> & _)])]); cbn [fst snd]; try done.
    by apply well_formed_evicted.
  - destruct (backend_delete_eq b key c) as [r ->]. cbn [fst snd].
    by apply well_formed_evicted.
  - by rewrite backend_exists_eq.
  - destruct (backend_clear_eq b c) as (b' & -> & _ & Hkeep & _). by apply Hkeep.
Qed.

Lemma operations_keep_the_metadata_in_step_witness :
  let e := entry_of "a" hello t0 (Some (t0 + 60000000)) None in
  let c := ticking t0 1 in
  well_formed (s3_bucket ∅)
  /\ well_formed (CacheBackend.set e (s3_bucket ∅) c).1.2
  /\ well_formed (CacheBackend.get "a" (s3_bucket ∅) c).1.2
  /\ well_formed (CacheBackend.delete "a" (s3_bucket ∅) c).1.2
  /\ well_formed (CacheBackend.exists_ "a" (s3_bucket ∅) c).1.2
  /\ well_formed (CacheBackend.clear (s3_bucket ∅) c).1.2.
Proof.
  intros e c.
  assert (well_formed (s3_bucket ∅)) as Hwf.
  { unfold s3_bucket. cbn [well_formed S3CacheBackend.s3_client].
    intros k o Ho. by rewrite lookup_empty in Ho. }
  split; [exact Hwf |].
  exact (operations_keep_the_metadata_in_step (s3_bucket ∅) "a" e c Hwf).
Defined.

(** ** Clearing the manager *)

Lemma manager_clear_all_cons {B : Type} `{CacheBackend.t B} success (b : B) bs c :
  CacheManager.clear_all success (b :: bs) c
  = let '(o, b', c') := CacheBackend.clear b c in
    let '(r, rest', c'') :=
      CacheManager.clear_all (match o with Ret true => success | _ => false end)
        bs c' in
    (r, b' :: rest', c'').
Proof. reflexivity. Qed.

Lemma clear_all_empties success (bs : list Backend) c :
  exists bs1,
    CacheManager.clear_all success bs c = (Ret success, bs1, c)
    /\ Forall (fun b => forall key, held b key = None) bs1.
Proof.
  revert success. induction bs as [|b bs IH]; intros success.
  - exists []. by split.
  - rewrite manager_clear_all_cons.
    destruct (backend_clear_eq b c) as (b' & -> & Hnone & _).
    destruct (IH success) as (bs1 & -> & Hall).
    exists (b' :: bs1). split; [done|]. by constructor.
Qed.

(** X15: [CacheManager.clear] over Redis, S3 and local backends returns
    true and leaves every backend without an entry under any key, so
    that a [get] or an [exists] that follows finds nothing, whatever the
    key.  This needs, of a Redis backend, a prefix free of glob
    characters, since [clear] uses the prefix as a pattern, and of an S3
    backend, objects that fit the one delete request of [clear]. *)
Theorem clear_then_read_finds_nothing (bs : list Backend) (c : Clock) :
  forallb clearable bs = true ->
  exists bs1,
    CacheManager.clear bs c = (Ret true, bs1, c)
    /\ forall (key : string) (c2 : Clock),
         (exists c3, CacheManager.get key bs1 c2 = (Ret None, bs1, c3))
         /\ (exists c3, CacheManager.exists_ key bs1 c2 = (Ret false, bs1, c3)).
Proof.
  intros _. unfold CacheManager.clear.
  destruct (clear_all_empties true bs c) as (bs1 & -> & Hall).
  exists bs1. split; [done|]. intros key c2.
  assert (Forall (fun b => held b key = None) bs1) as Hkey.
  { eapply Forall_impl; [exact Hall|]. intros b Hb. apply Hb. }
  split; [by apply get_all_absent | by apply exists_all_absent].
Qed.

Lemma clear_then_read_finds_nothing_witness :
  let d := dict_of "a" hello t0 None in
  let bs := [redis_db {[ "universal_recycle:a" := (d, t0 + 3600000000) ]};
             s3_bucket {[ "universal_recycle/a" := object_of d ]}] in
  forallb clearable bs = true
  /\ exists bs1,
       CacheManager.clear bs (ticking t0 1) = (Ret true, bs1, ticking t0 1)
       /\ forall (key : string) (c2 : Clock),
            (exists c3, CacheManager.get key bs1 c2 = (Ret None, bs1, c3))
            /\ (exists c3, CacheManager.exists_ key bs1 c2 = (Ret false, bs1, c3)).
Proof.
  intros d bs.
  assert (forallb clearable bs = true) as Hlit by (vm_compute; reflexivity).
  split; [exact Hlit |].
  exact (clear_then_read_finds_nothing bs (ticking t0 1) Hlit).
Defined.

(** ** The construction of the manager *)

Lemma setup_backends_step env (cfg : config.t) (rest : list config.t)
    (acc : list Backend) (t : string) :
  config.type_ cfg = Some t ->
  _setup_backends env (cfg :: rest) acc
  = _setup_backends env rest
      (match configured_backend env cfg with
       | Some b => acc ++ [b]
       | None => acc
       end).
Proof.
  intros Ht. cbn [_setup_backends]. unfold configured_backend, of_type.
  rewrite Ht. destruct (String.eqb t "redis").
  { unfold RedisCacheBackend_init. by destruct (REDIS_AVAILABLE env). }
  destruct (String.eqb t "s3").
  { unfold S3CacheBackend_init.
    destruct (BOTO3_AVAILABLE env); [|done]. cbn [negb andb].
    destruct (config.bucket_name cfg) as [name|].
    - by rewrite bool_decide_eq_true_2 by (by eexists).
    - by rewrite bool_decide_eq_false_2 by (by intros [? ?]). }
  by destruct (String.eqb t "local").
Qed.

Lemma omap_cons {A C} (f : A -> option C) (x : A) (l : list A) :
  omap f (x :: l)
  = match f x with Some y => y :: omap f l | None => omap f l end.
Proof. reflexivity. Qed.

Lemma setup_backends_spec env (cfgs : list config.t) (acc : list Backend) :
  _setup_backends env cfgs acc
  = if forallb has_type cfgs
    then inr (acc ++ omap (configured_backend env) cfgs)
    else inl KeyError.
Proof.
  revert acc. induction cfgs as [|cfg cfgs IH]; intros acc.
  - cbn. by rewrite app_nil_r.
  - cbn [forallb]. unfold has_type at 1.
    destruct (config.type_ cfg) as [t|] eqn:Ht;
      [|cbn [_setup_backends]; by rewrite Ht].
    cbn [andb].
    rewrite (setup_backends_step env cfg cfgs acc t Ht), IH, omap_cons.
    destruct (forallb has_type cfgs); [|done].
    destruct (configured_backend env cfg); [|done]. by rewrite <- app_assoc.
Qed.

(** X16: the backends of a manager are the configured backends that are
    of a known type ([redis], [s3], [local]) and could be constructed
    (library installed, [bucket_name] given), in the order of the
    configuration, every other entry being skipped; but an entry without
    a [type] makes the construction of the manager fail, wherever it
    stands in the list.  Without a [backends] key the manager has no
    backend, and it never has more backends than configured. *)
Theorem active_backends_follow_the_configuration
    (env : environment) (cfgs : list config.t) :
  CacheManager_init env (Some cfgs)
  = (if forallb has_type cfgs
     then inr (omap (configured_backend env) cfgs)
     else inl KeyError)
  /\ CacheManager_init env None = inr []
  /\ (length (omap (configured_backend env) cfgs) <= length cfgs)%nat.
Proof.
  split; [apply setup_backends_spec|]. split; [done|].
  induction cfgs as [|cfg cfgs IH]; [done|].
  rewrite omap_cons. destruct (configured_backend env cfg); cbn [length]; lia.
Qed.

Lemma configured_without_libraries env (cfg : config.t) :
  REDIS_AVAILABLE env = false -> BOTO3_AVAILABLE env = false ->
  configured_backend env cfg
  = if of_type "local" cfg
    then Some (Local {| LocalCacheBackend.cache_dir :=
                          config.get (config.cache_dir cfg) ".cache/universal_recycle";
                        LocalCacheBackend.default_ttl :=
                          config.get (config.default_ttl cfg) 3600;
                        LocalCacheBackend.files :=
                          file_system env
                            (config.get (config.cache_dir cfg)
                               ".cache/universal_recycle") |})
    else None.
Proof.
  intros Hr Hs. unfold configured_backend, of_type. rewrite Hr, Hs.
  destruct (config.type_ cfg) as [t|]; [|done].
  destruct (String.eqb_spec t "redis") as [->|_]; [done|].
  destruct (String.eqb_spec t "s3") as [->|_]; [done|].
  by destruct (String.eqb t "local").
Qed.

(** X17: when neither client library is installed, a manager built from
    a configuration whose entries all have a type keeps exactly its local
    backends: one per [local] entry, and nothing else. *)
Theorem manager_degrades_to_local_backends
    (env : environment) (cfgs : list config.t) :
  REDIS_AVAILABLE env = false ->
  BOTO3_AVAILABLE env = false ->
  forallb has_type cfgs = true ->
  exists bs,
    CacheManager_init env (Some cfgs) = inr bs
    /\ forallb is_local bs = true
    /\ length bs = length (filter (fun cfg => of_type "local" cfg = true) cfgs).
Proof.
  intros Hr Hs Hty. unfold CacheManager_init. cbn [config.get].
  rewrite setup_backends_spec, Hty. eexists. split; [reflexivity|].
  clear Hty. induction cfgs as [|cfg cfgs [IH1 IH2]]; [done|].
  cbn [app] in *. rewrite omap_cons, filter_cons.
  rewrite (configured_without_libraries env cfg Hr Hs).
  destruct (of_type "local" cfg) eqn:E.
  - rewrite decide_True by done. cbn [forallb is_local andb length].
    split; [done | by rewrite IH2].
  - rewrite decide_False by done. done.
Qed.

Lemma manager_degrades_to_local_backends_witness :
  let env := {| REDIS_AVAILABLE := false; BOTO3_AVAILABLE := false;
                redis_server := fun _ _ _ => ∅; s3_service := fun _ => ∅;
                file_system := fun _ => ∅ |} in
  let redis_entry :=
    {| config.type_ := Some "redis";
       config.host := Some "localhost"; config.port := Some 6379;
       config.db := Some 0; config.prefix := Some "universal_recycle:";
       config.default_ttl := Some 3600; config.bucket_name := None;
       config.cache_dir := None |} in
  exists bs,
    CacheManager_init env (Some (redis_entry :: default_cache_config)) = inr bs
    /\ forallb is_local bs = true
    /\ length bs
       = length (filter (fun cfg => of_type "local" cfg = true)
                   (redis_entry :: default_cache_config)).
Proof.
  intros env redis_entry.
  apply (manager_degrades_to_local_backends env
           (redis_entry :: default_cache_config)); reflexivity.
Defined.


(** ** Statistics *)

Section stats_facts.

Context {B Stats : Type} (backend_get_stats : M B Stats).

Lemma collect_stats_spec (bs : list B) (collected : list Stats) c :
  exists more,
    (collect_stats backend_get_stats bs collected c).1.1 = collected ++ more
    /\ (length more <= length bs)%nat
    /\ ((forall b c0, exists s, (backend_get_stats b c0).1.1 = Ret s) ->
        length more = length bs)
    /\ length (collect_stats backend_get_stats bs collected c).1.2 = length bs.
Proof.
  revert collected c. induction bs as [|b bs IH]; intros collected c.
  - exists []. cbn. by rewrite app_nil_r.
  - cbn [collect_stats].
    destruct (backend_get_stats b c) as [[o b'] c'] eqn:Hb.
    specialize (IH (match o with
                    | Ret s => collected ++ [s]
                    | Raise _ => collected
                    end) c').
    destruct (collect_stats backend_get_stats bs _ c') as [[all rest] c''].
    destruct IH as (more & Hall & Hle & Heq & Hlen). cbn [fst snd] in *.
    destruct o as [s|x].
    + exists (s :: more). rewrite Hall, <- app_assoc.
      repeat split; cbn [length app]; try lia.
      intros Hok. by rewrite (Heq Hok).
    + exists more. repeat split; cbn [length]; try done; try lia.
      intros Hok. destruct (Hok b c) as [s Hs]. by rewrite Hb in Hs.
Qed.

End stats_facts.

(** X18: [CacheManager.get_stats] never raises, whatever the backends
    do; [total_backends] is the number of backends of the manager, the
    list of statistics holds at most that many items, one for each
    backend whose [get_stats] returned, and exactly that many when no
    backend raises; the manager keeps its backends. *)
Theorem stats_count_every_backend {B Stats : Type}
    (backend_get_stats : M B Stats) (bs : list B) (c : Clock) :
  exists (all : list Stats) (bs' : list B) (c' : Clock),
    get_stats backend_get_stats bs c = (Ret (all, len bs), bs', c')
    /\ length bs' = length bs
    /\ (length all <= length bs)%nat
    /\ ((forall b c0, exists s, (backend_get_stats b c0).1.1 = Ret s) ->
        length all = length bs).
Proof.
  unfold get_stats.
  destruct (collect_stats_spec backend_get_stats bs [] c)
    as (more & Hall & Hle & Heq & Hlen).
  destruct (collect_stats backend_get_stats bs [] c) as [[all bs'] c'].
  cbn [fst snd app] in *. subst all. by exists more, bs', c'.
Qed.

(** ** The hash of a file *)

Lemma feed_chunks_spec (fuel : nat) (unread fed : bytes) :
  (length unread < fuel)%nat ->
  feed_chunks fuel unread fed = Some (fed ++ unread).
Proof.
  revert unread fed. induction fuel as [|fuel IH]; intros unread fed Hlt; [lia|].
  cbn [feed_chunks].
  destruct (take chunk_size unread) as [|x chunk] eqn:Hchunk.
  - assert (unread = []) as ->.
    { destruct unread as [|y unread]; [done|].
      apply (f_equal length) in Hchunk. rewrite length_take in Hchunk.
      cbn [length] in Hchunk. unfold chunk_size in Hchunk. lia. }
    by rewrite app_nil_r.
  - rewrite IH.
    + by rewrite <- Hchunk, <- app_assoc, take_drop.
    + rewrite length_drop. destruct unread as [|y unread];
        [by rewrite take_nil in Hchunk|].
      cbn [length] in *. unfold chunk_size. lia.
Qed.

(** X19: [compute_file_hash] reads the file in chunks of 4096 bytes, yet
    the digest it returns is the digest of the whole content: the chunks
    it feeds add up to the file, whatever its length, the empty file
    included, and the loop ends within one read per byte plus one.  For a
    path without a file it raises. *)
Theorem file_hash_is_the_digest_of_the_content
    (sha256_hexdigest : bytes -> string) (fs : string -> option bytes)
    (file_path : string) (fuel : nat) :
  (forall content, fs file_path = Some content -> (length content < fuel)%nat) ->
  compute_file_hash sha256_hexdigest fuel fs file_path
  = Some (match fs file_path with
          | Some content => inr (sha256_hexdigest content)
          | None => inl FileNotFoundError
          end).
Proof.
  intros Hfuel. unfold compute_file_hash.
  destruct (fs file_path) as [content|]; [|done].
  by rewrite feed_chunks_spec by (by apply Hfuel).
Qed.

Lemma file_hash_is_the_digest_of_the_content_witness :
  let digest := fun msg : bytes => md5.hex (md5.digest msg) in
  let fs := fun path : string =>
              if String.eqb path "a.txt" then Some hello else None in
  compute_file_hash digest 6 fs "a.txt" = Some (inr (digest hello))
  /\ compute_file_hash digest 6 fs "b.txt" = Some (inl FileNotFoundError).
Proof.
  intros digest fs. split.
  - apply (file_hash_is_the_digest_of_the_content digest fs "a.txt" 6).
    intros content Hc. injection Hc as <-. cbn [hello length list_byte_of_string].
    vm_compute. lia.
  - apply (file_hash_is_the_digest_of_the_content digest fs "b.txt" 6).
    intros content Hc. discriminate Hc.
Defined.
